(** * event-flow: the registration and access-control core

    A shallow embedding of the database logic of the event management
    application (the SQL migrations under [supabase/migrations]) and of
    the client handlers that write to it ([handleRegister],
    [handleCancelBooking], [handleDeleteEvent], [markTaskComplete],
    [handleSubmit] of the profile form), followed by the properties of
    the specification that were checked against them.

    Conventions.
    - A table is a list of rows; the newest row is kept at the head.  No
      property below depends on the order of rows.
    - A statement either commits a new database or raises a PostgreSQL
      error ([pg_result]); a raised error rolls the statement back.
    - Values the environment supplies (the clock, [Math.random()],
      [uuid_generate_v4()], the signed-in identity [auth.uid()]) are
      explicit parameters. *)

From Stdlib Require Import List String Ascii ZArith Bool Lia.
From Stdlib Require Import DecimalString Permutation Sorted.
From Stdlib Require DecimalPos DecimalZ.
Import ListNotations.
Open Scope string_scope.
Open Scope Z_scope.

(** ** Column types *)

Definition uuid := string.
Definition timestamptz := Z.

(** [CREATE TYPE user_role AS ENUM ('organizer', 'volunteer', 'attendee')] *)
Inductive user_role : Type :=
  | organizer
  | volunteer
  | attendee.

(** [CREATE TYPE event_status AS ENUM ('draft', 'published', 'ongoing',
    'completed', 'cancelled')] *)
Inductive event_status : Type :=
  | ev_draft
  | ev_published
  | ev_ongoing
  | ev_completed
  | ev_cancelled.

(** [CREATE TYPE registration_status AS ENUM ('pending', 'confirmed',
    'cancelled', 'attended')] *)
Inductive registration_status : Type :=
  | reg_pending
  | reg_confirmed
  | reg_cancelled
  | reg_attended.

(** [CREATE TYPE task_status AS ENUM ('pending', 'in_progress',
    'completed')] *)
Inductive task_status : Type :=
  | task_pending
  | task_in_progress
  | task_completed.

Definition user_role_eqb (a b : user_role) : bool :=
  match a, b with
  | organizer, organizer | volunteer, volunteer | attendee, attendee => true
  | _, _ => false
  end.

Definition event_status_eqb (a b : event_status) : bool :=
  match a, b with
  | ev_draft, ev_draft | ev_published, ev_published | ev_ongoing, ev_ongoing
  | ev_completed, ev_completed | ev_cancelled, ev_cancelled => true
  | _, _ => false
  end.

Definition registration_status_eqb (a b : registration_status) : bool :=
  match a, b with
  | reg_pending, reg_pending | reg_confirmed, reg_confirmed
  | reg_cancelled, reg_cancelled | reg_attended, reg_attended => true
  | _, _ => false
  end.

(** ** Rows *)

(** [public.profiles] *)
Record Profile : Type := mkProfile {
  p_id : uuid;
  p_email : string;
  p_full_name : string;
  p_phone : option string;
  p_role : user_role;
  p_company : option string;
  p_skills : option (list string);
  p_profile_picture_url : option string;
  p_created_at : timestamptz;
  p_updated_at : timestamptz
}.

(** [public.events] *)
Record Event : Type := mkEvent {
  e_id : uuid;
  e_organizer_id : uuid;
  e_title : string;
  e_category : string;
  e_date_time : timestamptz;
  e_end_time : option timestamptz;
  e_venue : string;
  e_capacity : Z;
  e_price : Z;
  e_status : event_status
}.

(** [public.event_registrations] *)
Record EventRegistration : Type := mkRegistration {
  r_id : uuid;
  r_event_id : uuid;
  r_attendee_id : uuid;
  r_registration_date : timestamptz;
  r_status : registration_status;
  r_ticket_number : string;
  r_seat_number : option string;
  r_checked_in : bool;
  r_checked_in_at : option timestamptz
}.

(** [public.volunteer_assignments] *)
Record VolunteerAssignment : Type := mkAssignment {
  a_id : uuid;
  a_event_id : uuid;
  a_volunteer_id : uuid;
  a_assigned_role : string;
  a_assigned_at : timestamptz
}.

(** [public.event_tasks] *)
Record EventTask : Type := mkTask {
  t_id : uuid;
  t_event_id : uuid;
  t_volunteer_id : option uuid;
  t_title : string;
  t_status : task_status;
  t_due_date : option timestamptz;
  t_completed_at : option timestamptz;
  t_created_at : timestamptz
}.

(** The five tables of the schema. *)
Record DB : Type := mkDB {
  profiles : list Profile;
  events : list Event;
  event_registrations : list EventRegistration;
  volunteer_assignments : list VolunteerAssignment;
  event_tasks : list EventTask
}.

Definition empty_db : DB := mkDB [] [] [] [] [].

Definition with_profiles (ps : list Profile) (db : DB) : DB :=
  mkDB ps (events db) (event_registrations db) (volunteer_assignments db)
       (event_tasks db).

Definition with_events (es : list Event) (db : DB) : DB :=
  mkDB (profiles db) es (event_registrations db) (volunteer_assignments db)
       (event_tasks db).

Definition with_registrations (rs : list EventRegistration) (db : DB) : DB :=
  mkDB (profiles db) (events db) rs (volunteer_assignments db) (event_tasks db).

Definition with_assignments (xs : list VolunteerAssignment) (db : DB) : DB :=
  mkDB (profiles db) (events db) (event_registrations db) xs (event_tasks db).

Definition with_tasks (ts : list EventTask) (db : DB) : DB :=
  mkDB (profiles db) (events db) (event_registrations db)
       (volunteer_assignments db) ts.

(** ** Statement results *)

(** The PostgreSQL error classes the schema can raise.  The string is the
    name of the violated constraint or column. *)
Inductive pg_error : Type :=
  | unique_violation (constraint : string)
  | foreign_key_violation (constraint : string)
  | not_null_violation (column : string)
  | check_violation (constraint : string)
  | invalid_text_representation (type_name : string)
  | rls_violation (table : string).

Inductive pg_result (A : Type) : Type :=
  | Ok (a : A)
  | Err (e : pg_error).

Arguments Ok {A} a.
Arguments Err {A} e.

Definition bind {A B : Type} (r : pg_result A) (k : A -> pg_result B)
  : pg_result B :=
  match r with
  | Ok a => k a
  | Err e => Err e
  end.

(** [guard ok e] raises [e] unless [ok]. *)
Definition guard (ok : bool) (e : pg_error) : pg_result unit :=
  if ok then Ok tt else Err e.

Notation "x <- c1 ;; c2" := (bind c1 (fun x => c2))
  (at level 61, c1 at next level, right associativity).
Notation "c1 ;;; c2" := (bind c1 (fun _ => c2))
  (at level 61, right associativity).

(** A statement that raised is rolled back: the database stays as it
    was. *)
Definition commit (db : DB) (r : pg_result DB) : DB :=
  match r with
  | Ok db' => db'
  | Err _ => db
  end.

(** [auth.uid() = id]: the signed-in identity is [NULL] for an anonymous
    caller, and a comparison with [NULL] is not true. *)
Definition uid_is (uid : option uuid) (id : uuid) : bool :=
  match uid with
  | Some u => String.eqb u id
  | None => false
  end.

(** ** Lookups shared by constraints, policies and helper functions *)

Definition profile_exists (id : uuid) (db : DB) : bool :=
  existsb (fun p => String.eqb (p_id p) id) (profiles db).

Definition event_exists (id : uuid) (db : DB) : bool :=
  existsb (fun e => String.eqb (e_id e) id) (events db).

(** [public.get_user_role(p_user_id)]:
    [SELECT role INTO v_role FROM public.profiles WHERE id = p_user_id]. *)
Definition get_user_role (p_user_id : option uuid) (db : DB)
  : option user_role :=
  match find (fun p => uid_is p_user_id (p_id p)) (profiles db) with
  | Some p => Some (p_role p)
  | None => None
  end.

(** [public.is_organizer_of_event(p_event_id, p_user_id)]. *)
Definition is_organizer_of_event (p_event_id : uuid) (p_user_id : option uuid)
    (db : DB) : bool :=
  existsb (fun e => String.eqb (e_id e) p_event_id
                    && uid_is p_user_id (e_organizer_id e)) (events db).

(** [auth.uid() IN (SELECT volunteer_id FROM public.volunteer_assignments
    WHERE event_id = ...)]. *)
Definition is_assigned_volunteer (event_id : uuid) (uid : option uuid)
    (db : DB) : bool :=
  existsb (fun a => String.eqb (a_event_id a) event_id
                    && uid_is uid (a_volunteer_id a))
          (volunteer_assignments db).

(** ** Identity bridge: the [on_auth_user_created] trigger *)

(** A row of [auth.users] as the trigger sees it.  The signup metadata is
    a JSON object whose values are JSON strings ([Some s]) or JSON [null]
    ([None]). *)
Record AuthUser : Type := mkAuthUser {
  au_id : uuid;
  au_email : string;
  au_raw_user_meta_data : list (string * option string)
}.

(** [meta ->> key]: the text of a field, [NULL] when the key is absent or
    holds JSON [null]. *)
Fixpoint json_get_text (meta : list (string * option string)) (key : string)
  : option string :=
  match meta with
  | [] => None
  | (k, v) :: rest => if String.eqb k key then v else json_get_text rest key
  end.

(** The labels of the enum [user_role]. *)
Definition user_role_of_label (s : string) : option user_role :=
  if String.eqb s "organizer" then Some organizer
  else if String.eqb s "volunteer" then Some volunteer
  else if String.eqb s "attendee" then Some attendee
  else None.

(** [(text)::public.user_role]: [NULL] casts to [NULL], a label of the
    enum to its value, any other text raises. *)
Definition cast_user_role (t : option string) : pg_result (option user_role) :=
  match t with
  | None => Ok None
  | Some s =>
      match user_role_of_label s with
      | Some ro => Ok (Some ro)
      | None => Err (invalid_text_representation "user_role")
      end
  end.

(** [COALESCE(a, b)] with a non-null second argument. *)
Definition coalesce {A : Type} (a : option A) (b : A) : A :=
  match a with
  | Some x => x
  | None => b
  end.

(** A [NOT NULL] column refuses an explicit [NULL]. *)
Definition not_null {A : Type} (column : string) (v : option A)
  : pg_result A :=
  match v with
  | Some x => Ok x
  | None => Err (not_null_violation column)
  end.

(** [INSERT INTO public.profiles (id, email, full_name, role, phone)]:
    the [NOT NULL] columns are checked in column order, then the primary
    key.  Columns the statement does not list take their defaults
    ([NULL], and [NOW()] for the two timestamps). *)
Definition insert_profile (id : uuid) (email : string)
    (full_name : option string) (role : option user_role)
    (phone : option string) (now : timestamptz) (db : DB) : pg_result DB :=
  fn <- not_null "full_name" full_name ;;
  ro <- not_null "role" role ;;
  guard (negb (profile_exists id db)) (unique_violation "profiles_pkey") ;;;
  Ok (with_profiles
        (mkProfile id email fn phone ro None None None now now :: profiles db)
        db).

(** The trigger function as the initial schema migration
    (20250120120000) defines it. *)
Module InitialSchema.

Definition handle_new_user (NEW : AuthUser) (now : timestamptz) (db : DB)
  : pg_result DB :=
  let meta := au_raw_user_meta_data NEW in
  ro <- cast_user_role (json_get_text meta "role") ;;
  insert_profile (au_id NEW) (au_email NEW)
    (Some (coalesce (json_get_text meta "full_name") (au_email NEW)))
    (Some (coalesce ro attendee))
    None now db.

End InitialSchema.

(** The trigger function as every later migration redefines it, last in
    20250727120000_fix_user_creation_trigger: the values are taken from
    the metadata as they are. *)
Definition handle_new_user (NEW : AuthUser) (now : timestamptz) (db : DB)
  : pg_result DB :=
  let meta := au_raw_user_meta_data NEW in
  ro <- cast_user_role (json_get_text meta "role") ;;
  insert_profile (au_id NEW) (au_email NEW)
    (json_get_text meta "full_name")
    ro
    (json_get_text meta "phone") now db.

(** The contract of section 4.1 for a single delivery, in the words of
    the specification: the role of the metadata when it is one of the
    three roles and [attendee] otherwise, the full name of the metadata or
    else the e-mail address. *)
Definition spec_role (meta : list (string * option string)) : user_role :=
  match json_get_text meta "role" with
  | Some s => coalesce (user_role_of_label s) attendee
  | None => attendee
  end.

Definition spec_full_name (NEW : AuthUser) : string :=
  coalesce (json_get_text (au_raw_user_meta_data NEW) "full_name")
           (au_email NEW).

(** A delivery is provisioned as the specification asks when the trigger
    commits and the new head row carries the specified role and name. *)
Definition provisioned_as_specified (r : pg_result DB) (NEW : AuthUser)
  : Prop :=
  exists db', r = Ok db' /\
    exists p rest, profiles db' = p :: rest /\
      p_id p = au_id NEW /\
      p_role p = spec_role (au_raw_user_meta_data NEW) /\
      p_full_name p = spec_full_name NEW.

(** Re-delivery as the specification asks: a success that leaves the
    database as it is. *)
Definition idempotent_success (r : pg_result DB) (db : DB) : Prop :=
  r = Ok db.

(** ** Row-level security

    The permissive policies of one table that apply to a command are
    OR-ed.  Unless a module says otherwise the policies are those of the
    initial schema migration. *)

(** Profiles, [FOR UPDATE]: "Users can update their own profile",
    [USING (auth.uid() = id)]; the later migrations add the same
    expression as [WITH CHECK]. *)
Definition profiles_update_policy (uid : option uuid) (p : Profile) : bool :=
  uid_is uid (p_id p).

(** The events policies of the initial schema migration. *)
Module EventPoliciesInitial.

(** "Anyone can view published events", [FOR SELECT]. *)
Definition anyone_can_view_published_events (uid : option uuid) (e : Event)
  : bool :=
  event_status_eqb (e_status e) ev_published || uid_is uid (e_organizer_id e).

(** "Organizers can manage their own events", [FOR ALL]. *)
Definition organizers_can_manage_their_own_events (uid : option uuid)
    (e : Event) : bool :=
  uid_is uid (e_organizer_id e).

(** "Organizers can create events", [FOR INSERT WITH CHECK]. *)
Definition organizers_can_create_events (uid : option uuid) (e : Event)
  : bool :=
  uid_is uid (e_organizer_id e).

Definition events_select (uid : option uuid) (db : DB) (e : Event) : bool :=
  anyone_can_view_published_events uid e
  || organizers_can_manage_their_own_events uid e.

End EventPoliciesInitial.

(** The events policies of the policy rebuild
    (20250101000010_definitive_function_and_policy_fix). *)
Module EventPoliciesRebuilt.

(** "Events are public to view", [FOR SELECT USING (true)]. *)
Definition events_are_public_to_view (uid : option uuid) (e : Event)
  : bool := true.

(** "Organizers can manage their own events", [FOR ALL USING
    (public.get_user_role(auth.uid()) = 'organizer' AND
    organizer_id = auth.uid())]. *)
Definition organizers_can_manage_their_own_events (uid : option uuid)
    (db : DB) (e : Event) : bool :=
  match get_user_role uid db with
  | Some ro => user_role_eqb ro organizer
  | None => false
  end && uid_is uid (e_organizer_id e).

Definition events_select (uid : option uuid) (db : DB) (e : Event) : bool :=
  events_are_public_to_view uid e
  || organizers_can_manage_their_own_events uid db e.

End EventPoliciesRebuilt.

(** The events policies of the reset
    (20250101000010_comprehensive_reset_and_recreation). *)
Module EventPoliciesReset.

(** "Authenticated users can view published events", [FOR SELECT]. *)
Definition authenticated_users_can_view_published_events (uid : option uuid)
    (e : Event) : bool :=
  event_status_eqb (e_status e) ev_published.

(** "Organizers can manage their own events", [FOR ALL]. *)
Definition organizers_can_manage_their_own_events (uid : option uuid)
    (e : Event) : bool :=
  uid_is uid (e_organizer_id e).

(** "Volunteers can view their assigned events", [FOR SELECT USING
    (EXISTS (SELECT 1 FROM public.volunteer_assignments WHERE event_id =
    public.events.id AND volunteer_id = auth.uid()))]. *)
Definition volunteers_can_view_their_assigned_events (uid : option uuid)
    (db : DB) (e : Event) : bool :=
  existsb (fun a => String.eqb (a_event_id a) (e_id e)
                    && uid_is uid (a_volunteer_id a))
          (volunteer_assignments db).

Definition events_select (uid : option uuid) (db : DB) (e : Event) : bool :=
  authenticated_users_can_view_published_events uid e
  || organizers_can_manage_their_own_events uid e
  || volunteers_can_view_their_assigned_events uid db e.

End EventPoliciesReset.

(** No migration drops "Anyone can view published events" or "Events are
    public to view": with every migration applied the [SELECT] grant on
    events is the union of the sets. *)
Definition events_select (uid : option uuid) (db : DB) (e : Event) : bool :=
  EventPoliciesInitial.events_select uid db e
  || EventPoliciesReset.events_select uid db e
  || EventPoliciesRebuilt.events_select uid db e.


(** Events, [FOR INSERT]: "Organizers can create events" and the
    [FOR ALL] policy. *)
Definition events_insert_policy (uid : option uuid) (e : Event) : bool :=
  EventPoliciesInitial.organizers_can_create_events uid e
  || EventPoliciesInitial.organizers_can_manage_their_own_events uid e.

(** Events, [FOR DELETE]: the [FOR ALL] policy. *)
Definition events_delete_policy (uid : option uuid) (e : Event) : bool :=
  EventPoliciesInitial.organizers_can_manage_their_own_events uid e.

(** Registrations, [FOR INSERT]: "Attendees can create registrations",
    [WITH CHECK (auth.uid() = attendee_id)]. *)
Definition registrations_insert_policy (uid : option uuid)
    (r : EventRegistration) : bool :=
  uid_is uid (r_attendee_id r).

(** Registrations, [FOR UPDATE]: "Attendees can update their
    registrations" and "Organizers and volunteers can update
    registrations". *)
Definition registrations_update_policy (uid : option uuid) (db : DB)
    (r : EventRegistration) : bool :=
  uid_is uid (r_attendee_id r)
  || (is_organizer_of_event (r_event_id r) uid db
      || is_assigned_volunteer (r_event_id r) uid db).

(** Assignments, [FOR ALL]: "Organizers can manage volunteer
    assignments". *)
Definition assignments_manage_policy (uid : option uuid) (db : DB)
    (a : VolunteerAssignment) : bool :=
  is_organizer_of_event (a_event_id a) uid db.

(** Tasks, [FOR ALL]: "Organizers can manage tasks". *)
Definition tasks_manage_policy (uid : option uuid) (db : DB) (t : EventTask)
  : bool :=
  is_organizer_of_event (t_event_id t) uid db.

(** Tasks, [FOR UPDATE]: the [FOR ALL] policy and "Volunteers can update
    their assigned tasks", [USING (auth.uid() = volunteer_id)]. *)
Definition tasks_update_policy (uid : option uuid) (db : DB) (t : EventTask)
  : bool :=
  tasks_manage_policy uid db t
  || match t_volunteer_id t with
     | Some v => uid_is uid v
     | None => false
     end.

(** ** Profile updates *)

(** The [SET] list of an [UPDATE public.profiles]: [None] leaves the
    column out.  The key and [created_at] are not in the list. *)
Record ProfileUpdates : Type := mkProfileUpdates {
  u_email : option string;
  u_full_name : option string;
  u_phone : option (option string);
  u_role : option user_role;
  u_company : option (option string);
  u_skills : option (option (list string));
  u_profile_picture_url : option (option string)
}.

(** One row under the [SET] list; the [update_profiles_updated_at]
    trigger stamps [updated_at = NOW()]. *)
Definition apply_profile_updates (u : ProfileUpdates) (now : timestamptz)
    (p : Profile) : Profile :=
  mkProfile (p_id p)
    (coalesce (u_email u) (p_email p))
    (coalesce (u_full_name u) (p_full_name p))
    (coalesce (u_phone u) (p_phone p))
    (coalesce (u_role u) (p_role p))
    (coalesce (u_company u) (p_company p))
    (coalesce (u_skills u) (p_skills p))
    (coalesce (u_profile_picture_url u) (p_profile_picture_url p))
    (p_created_at p)
    now.

(** [UPDATE public.profiles SET ... WHERE id = target] issued by [uid]:
    rows the [USING] expression hides are skipped without an error. *)
Definition update_profiles (uid : option uuid) (target : uuid)
    (u : ProfileUpdates) (now : timestamptz) (db : DB) : DB :=
  with_profiles
    (map (fun p =>
            if String.eqb (p_id p) target && profiles_update_policy uid p
            then apply_profile_updates u now p
            else p)
         (profiles db))
    db.

(** The state of the profile form ([formData] of [ProfilePage]). *)
Record ProfileForm : Type := mkProfileForm {
  f_full_name : string;
  f_email : string;
  f_phone : string;
  f_company : string;
  f_skills : string
}.

(** White space as [String.prototype.trim] strips it, for the ASCII
    range. *)
Definition is_space (c : ascii) : bool :=
  let n := nat_of_ascii c in
  (Nat.eqb n 32 || Nat.eqb n 9 || Nat.eqb n 10 || Nat.eqb n 11
   || Nat.eqb n 12 || Nat.eqb n 13)%bool.

Fixpoint trim_start (s : string) : string :=
  match s with
  | String c rest => if is_space c then trim_start rest else s
  | EmptyString => EmptyString
  end.

(** The string without its trailing white space. *)
Fixpoint trim_end (s : string) : string :=
  match s with
  | EmptyString => EmptyString
  | String c rest =>
      match trim_end rest with
      | EmptyString => if is_space c then EmptyString else String c EmptyString
      | kept => String c kept
      end
  end.

Definition trim (s : string) : string := trim_end (trim_start s).

(** [s.split(',')]. *)
Fixpoint split_commas (s : string) : list string :=
  match s with
  | EmptyString => [EmptyString]
  | String c rest =>
      if Ascii.eqb c ","%char then EmptyString :: split_commas rest
      else match split_commas rest with
           | piece :: pieces => String c piece :: pieces
           | [] => [String c EmptyString]
           end
  end.

Definition non_empty (s : string) : bool :=
  match s with
  | EmptyString => false
  | String _ _ => true
  end.

(** The [updates] object [handleSubmit] builds:
    [{...formData, skills: formData.skills ?
    formData.skills.split(',').map(s => s.trim()).filter(s => s) : []}]. *)
Definition form_updates (f : ProfileForm) : ProfileUpdates :=
  mkProfileUpdates
    (Some (f_email f))
    (Some (f_full_name f))
    (Some (Some (f_phone f)))
    None
    (Some (Some (f_company f)))
    (Some (Some (if non_empty (f_skills f)
                 then filter non_empty (map trim (split_commas (f_skills f)))
                 else [])))
    None.

(** [handleSubmit] of the profile page: [updateProfile(updates)].
    [updateProfile] belongs to [contexts/AuthContext], which is not among
    the sources, and is a parameter here. *)
Definition handleSubmit {R : Type} (updateProfile : ProfileUpdates -> R)
    (f : ProfileForm) : R :=
  updateProfile (form_updates f).

(** ** Events *)

(** [INSERT INTO public.events]: the policy, [CHECK (capacity > 0)], the
    primary key, then the foreign key to the organizer's profile. *)
Definition insert_event (uid : option uuid) (row : Event) (db : DB)
  : pg_result DB :=
  guard (events_insert_policy uid row) (rls_violation "events") ;;;
  guard (0 <? e_capacity row) (check_violation "events_capacity_check") ;;;
  guard (negb (event_exists (e_id row) db)) (unique_violation "events_pkey") ;;;
  guard (profile_exists (e_organizer_id row) db)
        (foreign_key_violation "events_organizer_id_fkey") ;;;
  Ok (with_events (row :: events db) db).

(** Whether a row refers to one of the event rows being deleted. *)
Definition refers_to (gone : list Event) (event_id : uuid) : bool :=
  existsb (fun e => String.eqb (e_id e) event_id) gone.

(** [DELETE FROM public.events WHERE doomed]: the three tables that
    reference [events(id)] do so [ON DELETE CASCADE]. *)
Definition delete_events (doomed : Event -> bool) (db : DB) : DB :=
  let gone := filter doomed (events db) in
  mkDB (profiles db)
       (filter (fun e => negb (doomed e)) (events db))
       (filter (fun r => negb (refers_to gone (r_event_id r)))
               (event_registrations db))
       (filter (fun a => negb (refers_to gone (a_event_id a)))
               (volunteer_assignments db))
       (filter (fun t => negb (refers_to gone (t_event_id t)))
               (event_tasks db)).

(** [handleDeleteEvent(eventId)] once the dialog is confirmed:
    [supabase.from('events').delete().eq('id', eventId)].  Rows the
    policy hides are not deleted and no error is raised for them. *)
Definition handleDeleteEvent (uid : option uuid) (eventId : uuid) (db : DB)
  : DB :=
  delete_events
    (fun e => String.eqb (e_id e) eventId && events_delete_policy uid e) db.

(** Deleting the [auth.users] row of [id]: [profiles(id)] references it
    [ON DELETE CASCADE], and events, registrations, assignments and tasks
    reference [profiles(id)] [ON DELETE CASCADE]. *)
Definition delete_user (id : uuid) (db : DB) : DB :=
  if profile_exists id db then
    let db1 := delete_events (fun e => String.eqb (e_organizer_id e) id) db in
    mkDB (filter (fun p => negb (String.eqb (p_id p) id)) (profiles db1))
         (events db1)
         (filter (fun r => negb (String.eqb (r_attendee_id r) id))
                 (event_registrations db1))
         (filter (fun a => negb (String.eqb (a_volunteer_id a) id))
                 (volunteer_assignments db1))
         (filter (fun t => negb match t_volunteer_id t with
                                | Some v => String.eqb v id
                                | None => false
                                end)
                 (event_tasks db1))
  else db.

(** ** Registrations *)

(** A row of [event_registrations] with this primary key exists. *)
Definition registration_id_in_use (id : uuid) (db : DB) : bool :=
  existsb (fun r => String.eqb (r_id r) id) (event_registrations db).

(** A row of [event_registrations] with this ticket number exists. *)
Definition ticket_in_use (ticket : string) (db : DB) : bool :=
  existsb (fun r => String.eqb (r_ticket_number r) ticket)
          (event_registrations db).

(** A row of [event_registrations] for this event and attendee exists,
    whatever its status. *)
Definition pair_registered (event_id attendee_id : uuid) (db : DB) : bool :=
  existsb (fun r => String.eqb (r_event_id r) event_id
                    && String.eqb (r_attendee_id r) attendee_id)
          (event_registrations db).

(** [INSERT INTO public.event_registrations]: the policy, the primary
    key, [UNIQUE (ticket_number)], [UNIQUE (event_id, attendee_id)], then
    the two foreign keys. *)
Definition insert_registration (uid : option uuid) (row : EventRegistration)
    (db : DB) : pg_result DB :=
  guard (registrations_insert_policy uid row)
        (rls_violation "event_registrations") ;;;
  guard (negb (registration_id_in_use (r_id row) db))
        (unique_violation "event_registrations_pkey") ;;;
  guard (negb (ticket_in_use (r_ticket_number row) db))
        (unique_violation "event_registrations_ticket_number_key") ;;;
  guard (negb (pair_registered (r_event_id row) (r_attendee_id row) db))
        (unique_violation "event_registrations_event_id_attendee_id_key") ;;;
  guard (event_exists (r_event_id row) db)
        (foreign_key_violation "event_registrations_event_id_fkey") ;;;
  guard (profile_exists (r_attendee_id row) db)
        (foreign_key_violation "event_registrations_attendee_id_fkey") ;;;
  Ok (with_registrations (row :: event_registrations db) db).

(** The [event] prop of the modal: a row of [events] and the optional
    [registrations_count] of the client-side [Event] type. *)
Record EventProp : Type := mkEventProp {
  ep_event : Event;
  ep_registrations_count : option Z
}.

(** [supabase.from('events').select('*')] of [fetchEvents] returns the
    columns of the table: [registrations_count] stays undefined. *)
Definition fetched_event (e : Event) : EventProp := mkEventProp e None.

(** [new Date(event.date_time) > new Date()]. *)
Definition isUpcoming (event : EventProp) (today : timestamptz) : bool :=
  today <? e_date_time (ep_event event).

(** [event.capacity - (event.registrations_count || 0)]. *)
Definition availableSeats (event : EventProp) : Z :=
  e_capacity (ep_event event) - coalesce (ep_registrations_count event) 0.

(** The modal shows the register button when
    [profile?.role === 'attendee' && isUpcoming && availableSeats > 0]. *)
Definition register_button_shown (profile : option Profile)
    (event : EventProp) (today : timestamptz) : bool :=
  match profile with
  | Some p => user_role_eqb (p_role p) attendee
  | None => false
  end && isUpcoming event today && (0 <? availableSeats event).

(** What one call of [handleRegister] draws from its environment:
    [Date.now()], [Math.random().toString(36).substr(2, 9).toUpperCase()],
    [new Date()] and the column default [uuid_generate_v4()]. *)
Record RegisterEnv : Type := mkRegisterEnv {
  date_now : Z;
  random_suffix : string;
  new_date : timestamptz;
  generated_id : uuid
}.

(** [`TKT-${Date.now()}-${...}`]. *)
Definition ticketNumber (env : RegisterEnv) : string :=
  "TKT-" ++ NilEmpty.string_of_int (Z.to_int (date_now env)) ++ "-"
  ++ random_suffix env.

(** How [handleRegister] ends: the early [return], the success alert, or
    the [catch] branch with its one message "Failed to register for
    event. Please try again." whatever the error was. *)
Inductive register_outcome : Type :=
  | returned_early
  | registered
  | failed_to_register (error : pg_error).

(** The row [handleRegister] inserts; the columns it leaves out take
    their defaults. *)
Definition new_registration (p : Profile) (event : EventProp)
    (env : RegisterEnv) : EventRegistration :=
  mkRegistration (generated_id env) (e_id (ep_event event)) (p_id p)
    (new_date env) reg_confirmed (ticketNumber env) None false None.

(** [handleRegister] of the event modal.  The signed-in identity is the
    one of [profile]. *)
Definition handleRegister (profile : option Profile) (event : EventProp)
    (env : RegisterEnv) (db : DB) : DB * register_outcome :=
  match profile with
  | None => (db, returned_early)
  | Some p =>
      if negb (user_role_eqb (p_role p) attendee) then (db, returned_early)
      else
        match insert_registration (Some (p_id p))
                (new_registration p event env) db
        with
        | Ok db' => (db', registered)
        | Err e => (db, failed_to_register e)
        end
  end.

(** A booking made through the modal: the button is there when the modal
    is rendered, and the click runs [handleRegister]. *)
Definition click_register (profile : option Profile) (event : EventProp)
    (today : timestamptz) (env : RegisterEnv) (db : DB)
  : DB * register_outcome :=
  if register_button_shown profile event today
  then handleRegister profile event env db
  else (db, returned_early).

(** [handleCancelBooking(ticketId)] once the dialog is confirmed:
    [update({ status: 'cancelled' }).eq('id', ticketId)]. *)
Definition handleCancelBooking (uid : option uuid) (ticketId : uuid) (db : DB)
  : DB :=
  with_registrations
    (map (fun r =>
            if String.eqb (r_id r) ticketId
               && registrations_update_policy uid db r
            then mkRegistration (r_id r) (r_event_id r) (r_attendee_id r)
                   (r_registration_date r) reg_cancelled (r_ticket_number r)
                   (r_seat_number r) (r_checked_in r) (r_checked_in_at r)
            else r)
         (event_registrations db))
    db.

(** A registration holds a seat when it is confirmed or attended. *)
Definition holds_seat (r : EventRegistration) : bool :=
  registration_status_eqb (r_status r) reg_confirmed
  || registration_status_eqb (r_status r) reg_attended.

(** [count(Registration where event_id = e AND status IN (confirmed,
    attended))]. *)
Definition occupied (event_id : uuid) (db : DB) : Z :=
  Z.of_nat (List.length
              (filter (fun r => String.eqb (r_event_id r) event_id
                                && holds_seat r)
                      (event_registrations db))).

(** The capacity invariant of sections 3 and 8, in the words of the
    specification. *)
Definition capacity_respected (db : DB) : Prop :=
  forall e, In e (events db) -> occupied (e_id e) db <= e_capacity e.

(** Several bookings, one [INSERT] statement each, run in the order
    given. *)
Fixpoint handleRegister_each (event : EventProp)
    (calls : list (Profile * RegisterEnv)) (db : DB)
  : DB * list register_outcome :=
  match calls with
  | [] => (db, [])
  | (p, env) :: rest =>
      let '(db1, o) := handleRegister (Some p) event env db in
      let '(db2, os) := handleRegister_each event rest db1 in
      (db2, o :: os)
  end.

(** ** Assignments and tasks *)

(** [INSERT INTO public.volunteer_assignments]. *)
Definition insert_assignment (uid : option uuid) (row : VolunteerAssignment)
    (db : DB) : pg_result DB :=
  let rows := volunteer_assignments db in
  guard (assignments_manage_policy uid db row)
        (rls_violation "volunteer_assignments") ;;;
  guard (negb (existsb (fun a => String.eqb (a_id a) (a_id row)) rows))
        (unique_violation "volunteer_assignments_pkey") ;;;
  guard (negb (existsb (fun a => String.eqb (a_event_id a) (a_event_id row)
                                 && String.eqb (a_volunteer_id a)
                                               (a_volunteer_id row)) rows))
        (unique_violation "volunteer_assignments_event_id_volunteer_id_key") ;;;
  guard (event_exists (a_event_id row) db)
        (foreign_key_violation "volunteer_assignments_event_id_fkey") ;;;
  guard (profile_exists (a_volunteer_id row) db)
        (foreign_key_violation "volunteer_assignments_volunteer_id_fkey") ;;;
  Ok (with_assignments (row :: rows) db).

(** [INSERT INTO public.event_tasks]. *)
Definition insert_task (uid : option uuid) (row : EventTask) (db : DB)
  : pg_result DB :=
  let rows := event_tasks db in
  guard (tasks_manage_policy uid db row) (rls_violation "event_tasks") ;;;
  guard (negb (existsb (fun t => String.eqb (t_id t) (t_id row)) rows))
        (unique_violation "event_tasks_pkey") ;;;
  guard (event_exists (t_event_id row) db)
        (foreign_key_violation "event_tasks_event_id_fkey") ;;;
  guard match t_volunteer_id row with
        | Some v => profile_exists v db
        | None => true
        end
        (foreign_key_violation "event_tasks_volunteer_id_fkey") ;;;
  Ok (with_tasks (row :: rows) db).

(** [markTaskComplete(taskId)]: [update({ status: 'completed',
    completed_at: new Date().toISOString() }).eq('id', taskId)]. *)
Definition markTaskComplete (uid : option uuid) (taskId : uuid)
    (now : timestamptz) (db : DB) : DB :=
  with_tasks
    (map (fun t =>
            if String.eqb (t_id t) taskId && tasks_update_policy uid db t
            then mkTask (t_id t) (t_event_id t) (t_volunteer_id t) (t_title t)
                   task_completed (t_due_date t) (Some now) (t_created_at t)
            else t)
         (event_tasks db))
    db.

(** ** The system as a transition system *)

(** The requests that change the database. *)
Inductive request : Type :=
  | NewUser (NEW : AuthUser) (now : timestamptz)
  | DeleteUser (id : uuid)
  | UpdateProfile (uid : option uuid) (target : uuid) (u : ProfileUpdates)
      (now : timestamptz)
  | CreateEvent (uid : option uuid) (row : Event)
  | DeleteEvent (uid : option uuid) (eventId : uuid)
  | Book (profile : option Profile) (event : EventProp) (env : RegisterEnv)
  | CancelBooking (uid : option uuid) (ticketId : uuid)
  | Assign (uid : option uuid) (row : VolunteerAssignment)
  | CreateTask (uid : option uuid) (row : EventTask)
  | CompleteTask (uid : option uuid) (taskId : uuid) (now : timestamptz).

Definition exec (q : request) (db : DB) : DB :=
  match q with
  | NewUser NEW now => commit db (handle_new_user NEW now db)
  | DeleteUser id => delete_user id db
  | UpdateProfile uid target u now => update_profiles uid target u now db
  | CreateEvent uid row => commit db (insert_event uid row db)
  | DeleteEvent uid eventId => handleDeleteEvent uid eventId db
  | Book profile event env => fst (handleRegister profile event env db)
  | CancelBooking uid ticketId => handleCancelBooking uid ticketId db
  | Assign uid row => commit db (insert_assignment uid row db)
  | CreateTask uid row => commit db (insert_task uid row db)
  | CompleteTask uid taskId now => markTaskComplete uid taskId now db
  end.

(** The requests of a history run oldest first. *)
Definition run (history : list request) (db : DB) : DB :=
  fold_left (fun d q => exec q d) history db.

Inductive reachable : DB -> Prop :=
  | reachable_empty : reachable empty_db
  | reachable_exec (q : request) (db : DB) :
      reachable db -> reachable (exec q db).

(** Referential integrity towards [events(id)]. *)
Definition references_existing_events (db : DB) : Prop :=
  (forall r, In r (event_registrations db) ->
             event_exists (r_event_id r) db = true)
  /\ (forall a, In a (volunteer_assignments db) ->
                event_exists (a_event_id a) db = true)
  /\ (forall t, In t (event_tasks db) ->
                event_exists (t_event_id t) db = true).


(** [UNIQUE (ticket_number)] as a property of the table. *)
Definition tickets_unique (db : DB) : Prop :=
  NoDup (map r_ticket_number (event_registrations db)).

(** The primary key of [events] as a property of the table. *)
Definition event_ids_unique (db : DB) : Prop :=
  NoDup (map e_id (events db)).

(** The three properties every reachable database has. *)
Definition consistent (db : DB) : Prop :=
  references_existing_events db /\ tickets_unique db /\ event_ids_unique db.

(** Bookings that can each go through on their own: the event exists,
    the callers are distinct attendees with a profile and without a row
    for the event, and the ticket numbers and keys drawn are distinct and
    not in use. *)
Definition eligible_calls (event_id : uuid)
    (calls : list (Profile * RegisterEnv)) (db : DB) : Prop :=
  event_exists event_id db = true
  /\ (forall c, In c calls ->
        p_role (fst c) = attendee
        /\ profile_exists (p_id (fst c)) db = true
        /\ pair_registered event_id (p_id (fst c)) db = false
        /\ ticket_in_use (ticketNumber (snd c)) db = false
        /\ registration_id_in_use (generated_id (snd c)) db = false)
  /\ NoDup (map (fun c => p_id (fst c)) calls)
  /\ NoDup (map (fun c => ticketNumber (snd c)) calls)
  /\ NoDup (map (fun c => generated_id (snd c)) calls).

(** A non-cancelled registration for the pair exists: the condition of
    step 3 of the booking algorithm, in the words of the
    specification. *)
Definition spec_already_registered (event_id attendee_id : uuid) (db : DB)
  : bool :=
  existsb (fun r => String.eqb (r_event_id r) event_id
                    && String.eqb (r_attendee_id r) attendee_id
                    && negb (registration_status_eqb (r_status r)
                                                     reg_cancelled))
          (event_registrations db).

(** ** Sample data

    An organizer, two attendees, a volunteer and four events, used by the
    examples below. *)

Definition signup (id role : string) : AuthUser :=
  mkAuthUser id (id ++ "@example.org")
    [("full_name", Some id); ("role", Some role)].

Definition olga : Profile :=
  mkProfile "olga" "olga@example.org" "olga" None organizer None None None
    10 10.

Definition anna : Profile :=
  mkProfile "anna" "anna@example.org" "anna" None attendee None None None 10 10.

Definition boris : Profile :=
  mkProfile "boris" "boris@example.org" "boris" None attendee None None None
    10 10.

(** A published event with one seat that starts at time 2000. *)
Definition talk : Event :=
  mkEvent "talk" "olga" "Talk" "tech" 2000 None "Hall" 1 0 ev_published.

(** A draft event with five seats that starts at time 5000. *)
Definition rehearsal : Event :=
  mkEvent "rehearsal" "olga" "Rehearsal" "tech" 5000 None "Hall" 5 0 ev_draft.

(** A published event with five seats that starts at time 500. *)
Definition warmup : Event :=
  mkEvent "warmup" "olga" "Warm-up" "tech" 500 None "Hall" 5 0 ev_published.

(** A published event with fifty seats that starts at time 9000. *)
Definition workshop : Event :=
  mkEvent "workshop" "olga" "Workshop" "tech" 9000 None "Lab" 50 0
    ev_published.

Definition db_open : DB :=
  run [NewUser (signup "olga" "organizer") 10;
       NewUser (signup "anna" "attendee") 10;
       NewUser (signup "boris" "attendee") 10;
       CreateEvent (Some "olga") talk;
       CreateEvent (Some "olga") rehearsal;
       CreateEvent (Some "olga") workshop;
       CreateEvent (Some "olga") warmup]
      empty_db.

(** Vera, a volunteer, is assigned to the rehearsal. *)
Definition db_staffed : DB :=
  run [NewUser (signup "vera" "volunteer") 10;
       Assign (Some "olga")
         (mkAssignment "s-vera" "rehearsal" "vera" "usher" 20)]
      db_open.

(** A signup whose metadata names a role outside the enum. *)
Definition mallory_signup : AuthUser :=
  mkAuthUser "mallory" "mallory@example.org"
    [("full_name", Some "Mallory"); ("role", Some "admin")].

(** A signup without metadata. *)
Definition bare_signup : AuthUser :=
  mkAuthUser "dana" "dana@example.org" [].

(** A [SET] list that names the role column only. *)
Definition promote_to_organizer : ProfileUpdates :=
  mkProfileUpdates None None None (Some organizer) None None None.

(** What the calls of Anna and Boris draw: the clock, the random suffix
    and the key of the new row. *)
Definition env_anna : RegisterEnv :=
  mkRegisterEnv 1000 "K3J9X0QPA" 1000 "r-anna".

Definition env_boris : RegisterEnv :=
  mkRegisterEnv 1001 "Z81MM4TQD" 1001 "r-boris".

(** Anna holds the only seat of the talk. *)
Definition db_full : DB :=
  exec (Book (Some anna) (fetched_event talk) env_anna) db_open.

(** Boris books the talk although it is full. *)
Definition db_overbooked : DB :=
  exec (Book (Some boris) (fetched_event talk) env_boris) db_full.

(** Anna has cancelled her booking: the row stays, with status
    cancelled. *)
Definition db_cancelled : DB :=
  exec (CancelBooking (Some "anna") "r-anna") db_full.

(** A second draw for Anna: another ticket number and another key. *)
Definition env_anna_again : RegisterEnv :=
  mkRegisterEnv 3000 "PQ7W2LLC0" 3000 "r-anna-2".

(** A draw for Boris that repeats Anna's ticket number. *)
Definition env_boris_collides : RegisterEnv :=
  mkRegisterEnv 1000 "K3J9X0QPA" 1002 "r-boris".

(** ** Further constraints of the schema as properties of the tables *)

(** Referential integrity towards [profiles(id)]: the organizer of an
    event, the attendee of a registration, the volunteer of an
    assignment and the volunteer of a task, when it has one. *)
Definition references_existing_profiles (db : DB) : Prop :=
  (forall e, In e (events db) -> profile_exists (e_organizer_id e) db = true)
  /\ (forall r, In r (event_registrations db) ->
                profile_exists (r_attendee_id r) db = true)
  /\ (forall a, In a (volunteer_assignments db) ->
                profile_exists (a_volunteer_id a) db = true)
  /\ (forall t v, In t (event_tasks db) -> t_volunteer_id t = Some v ->
                  profile_exists v db = true).

(** The primary keys of profiles, registrations, assignments and tasks,
    [UNIQUE (event_id, attendee_id)] and [UNIQUE (event_id,
    volunteer_id)]. *)
Definition keys_unique (db : DB) : Prop :=
  NoDup (map p_id (profiles db))
  /\ NoDup (map r_id (event_registrations db))
  /\ NoDup (map (fun r => (r_event_id r, r_attendee_id r))
                (event_registrations db))
  /\ NoDup (map a_id (volunteer_assignments db))
  /\ NoDup (map (fun a => (a_event_id a, a_volunteer_id a))
                (volunteer_assignments db))
  /\ NoDup (map t_id (event_tasks db)).

(** [CHECK (capacity > 0)]. *)
Definition capacities_positive (db : DB) : Prop :=
  forall e, In e (events db) -> 0 < e_capacity e.

Definition well_formed (db : DB) : Prop :=
  references_existing_profiles db /\ keys_unique db /\ capacities_positive db.

(** No row of any table refers to the identity. *)
Definition no_trace_of (id : uuid) (db : DB) : Prop :=
  profile_exists id db = false
  /\ (forall e, In e (events db) -> e_organizer_id e <> id)
  /\ (forall r, In r (event_registrations db) -> r_attendee_id r <> id)
  /\ (forall a, In a (volunteer_assignments db) -> a_volunteer_id a <> id)
  /\ (forall t, In t (event_tasks db) -> t_volunteer_id t <> Some id).

(** ** Role helpers of the migrations

    A comparison with the [NULL] that [get_user_role] returns for an
    identity without a profile is not true; the helpers are given as a
    policy reads them. *)

(** 20250101000004_fix_all_db_functions: [RETURN EXISTS (SELECT 1 FROM
    profiles WHERE profiles.id = user_id AND profiles.role = ...)]. *)
Module RoleHelpersExists.

Definition has_role (role : user_role) (user_id : option uuid) (db : DB)
  : bool :=
  existsb (fun p => uid_is user_id (p_id p) && user_role_eqb (p_role p) role)
          (profiles db).

Definition is_organizer := has_role organizer.
Definition is_volunteer := has_role volunteer.
Definition is_attendee := has_role attendee.

End RoleHelpersExists.

(** 20250101000010_comprehensive_reset_and_recreation: [RETURN
    public.get_user_role(p_user_id) = ...]. *)
Module RoleHelpersLookup.

Definition has_role (role : user_role) (p_user_id : option uuid) (db : DB)
  : bool :=
  match get_user_role p_user_id db with
  | Some ro => user_role_eqb ro role
  | None => false
  end.

Definition is_organizer := has_role organizer.
Definition is_volunteer := has_role volunteer.
Definition is_attendee := has_role attendee.

End RoleHelpersLookup.

(** ** Queries of the pages *)

(** [ORDER BY]: insertion into a list ordered by [leb].  Rows that
    compare equal come out in one of the orders the database may
    choose. *)
Fixpoint insert_ordered {A : Type} (leb : A -> A -> bool) (x : A)
    (l : list A) : list A :=
  match l with
  | [] => [x]
  | y :: rest => if leb x y then x :: l else y :: insert_ordered leb x rest
  end.

Definition order_by {A : Type} (leb : A -> A -> bool) (l : list A) : list A :=
  fold_right (insert_ordered leb) [] l.

(** Assignments, [FOR SELECT]: "Volunteers can view their assignments"
    and the [FOR ALL] policy of the organizers. *)
Definition assignments_select_policy (uid : option uuid) (db : DB)
    (a : VolunteerAssignment) : bool :=
  (uid_is uid (a_volunteer_id a) || is_organizer_of_event (a_event_id a) uid db)
  || assignments_manage_policy uid db a.

(** Registrations, [FOR SELECT]: "Users can view their own
    registrations". *)
Definition registrations_select_policy (uid : option uuid) (db : DB)
    (r : EventRegistration) : bool :=
  uid_is uid (r_attendee_id r)
  || is_organizer_of_event (r_event_id r) uid db
  || is_assigned_volunteer (r_event_id r) uid db.

(** [.order('date_time', { ascending: true })]. *)
Definition by_date_time (a b : Event) : bool :=
  e_date_time a <=? e_date_time b.

(** [fetchEvents] of the events page for a signed-in [profile]: the
    events the [SELECT] policy in force shows to the caller, narrowed by
    role and ordered by start time.  A volunteer without assignments gets
    the empty list without a query on events. *)
Definition fetchEvents (select_policy : option uuid -> DB -> Event -> bool)
    (profile : Profile) (db : DB) : list Event :=
  let uid := Some (p_id profile) in
  let visible := filter (select_policy uid db) (events db) in
  match p_role profile with
  | organizer =>
      order_by by_date_time
        (filter (fun e => String.eqb (e_organizer_id e) (p_id profile))
                visible)
  | volunteer =>
      let eventIds :=
        map a_event_id
            (filter (fun a => String.eqb (a_volunteer_id a) (p_id profile)
                              && assignments_select_policy uid db a)
                    (volunteer_assignments db)) in
      match eventIds with
      | [] => []
      | _ :: _ =>
          order_by by_date_time
            (filter (fun e => existsb (String.eqb (e_id e)) eventIds) visible)
      end
  | attendee =>
      order_by by_date_time
        (filter (fun e => event_status_eqb (e_status e) ev_published) visible)
  end.

(** The label of a status, as the client holds it. *)
Definition event_status_label (s : event_status) : string :=
  match s with
  | ev_draft => "draft"
  | ev_published => "published"
  | ev_ongoing => "ongoing"
  | ev_completed => "completed"
  | ev_cancelled => "cancelled"
  end.

(** [s.includes(part)]. *)
Definition includes (s part : string) : bool :=
  match String.index 0 part s with
  | Some _ => true
  | None => false
  end.

Section FilterEvents.

(** [String.prototype.toLowerCase] is taken as it is. *)
Variable toLowerCase : string -> string.

(** [filterEvents] of the events page, at time [today]: the search term,
    the status filter and the category filter, in this order. *)
Definition filterEvents (events : list Event)
    (searchTerm statusFilter categoryFilter : string) (today : timestamptz)
  : list Event :=
  let searched :=
    if non_empty searchTerm
    then filter (fun e =>
                   includes (toLowerCase (e_title e)) (toLowerCase searchTerm)
                   || includes (toLowerCase (e_venue e))
                               (toLowerCase searchTerm)
                   || includes (toLowerCase (e_category e))
                               (toLowerCase searchTerm))
                events
    else events in
  let by_status :=
    if String.eqb statusFilter "all" then searched
    else if String.eqb statusFilter "upcoming"
    then filter (fun e => today <? e_date_time e) searched
    else if String.eqb statusFilter "past"
    then filter (fun e => e_date_time e <=? today) searched
    else filter (fun e => String.eqb (event_status_label (e_status e))
                                     statusFilter) searched in
  if String.eqb categoryFilter "all" then by_status
  else filter (fun e => String.eqb (e_category e) categoryFilter) by_status.

End FilterEvents.

(** The three filters of [filterEvents] as one test on an event. *)
Definition passes_filters (lower : string -> string)
    (term status category : string) (today : timestamptz) (e : Event)
  : bool :=
  ((if non_empty term
    then includes (lower (e_title e)) (lower term)
         || includes (lower (e_venue e)) (lower term)
         || includes (lower (e_category e)) (lower term)
    else true)
   && (if String.eqb status "all" then true
       else if String.eqb status "upcoming" then today <? e_date_time e
       else if String.eqb status "past" then e_date_time e <=? today
       else String.eqb (event_status_label (e_status e)) status))
  && (if String.eqb category "all" then true
      else String.eqb (e_category e) category).

(** A row of [fetchTickets]: a registration with its event embedded
    ([event:events( * )]), [null] when the caller may not see the event. *)
Record Ticket : Type := mkTicket {
  tk_registration : EventRegistration;
  tk_event : option Event
}.

(** [.order('registration_date', { ascending: false })]. *)
Definition by_registration_date_desc (a b : EventRegistration) : bool :=
  r_registration_date b <=? r_registration_date a.

(** The [data] of [fetchTickets]: the registrations of the caller, newest
    first, each with its event. *)
Definition ticket_rows (select_policy : option uuid -> DB -> Event -> bool)
    (profile : Profile) (db : DB) : list Ticket :=
  let uid := Some (p_id profile) in
  map (fun r =>
         mkTicket r
           (find (fun e => String.eqb (e_id e) (r_event_id r)
                           && select_policy uid db e)
                 (events db)))
      (order_by by_registration_date_desc
         (filter (fun r => String.eqb (r_attendee_id r) (p_id profile)
                           && registrations_select_policy uid db r)
                 (event_registrations db))).

(** [ticket.event && new Date(ticket.event.date_time) > now]. *)
Definition ticket_upcoming (today : timestamptz) (t : Ticket) : bool :=
  match tk_event t with
  | Some e => today <? e_date_time e
  | None => false
  end.

(** [ticket.event && new Date(ticket.event.date_time) <= now]. *)
Definition ticket_past (today : timestamptz) (t : Ticket) : bool :=
  match tk_event t with
  | Some e => e_date_time e <=? today
  | None => false
  end.

(** [fetchTickets] of the tickets page: the upcoming tickets and the
    past ones. *)
Definition fetchTickets (select_policy : option uuid -> DB -> Event -> bool)
    (profile : Profile) (today : timestamptz) (db : DB)
  : list Ticket * list Ticket :=
  let data := ticket_rows select_policy profile db in
  (filter (ticket_upcoming today) data, filter (ticket_past today) data).

(** The update of the page state after [handleCancelBooking]:
    [prev.map(ticket => ticket.id === ticketId ? { ...ticket, status:
    'cancelled' } : ticket)]. *)
Definition cancel_on_page (ticketId : uuid) (tickets : list Ticket)
  : list Ticket :=
  map (fun t =>
         let r := tk_registration t in
         if String.eqb (r_id r) ticketId
         then mkTicket
                (mkRegistration (r_id r) (r_event_id r) (r_attendee_id r)
                   (r_registration_date r) reg_cancelled (r_ticket_number r)
                   (r_seat_number r) (r_checked_in r) (r_checked_in_at r))
                (tk_event t)
         else t)
      tickets.

(** The first and the last character of a string. *)
Definition first_char (s : string) : option ascii :=
  match s with
  | EmptyString => None
  | String c _ => Some c
  end.

Fixpoint last_char (s : string) : option ascii :=
  match s with
  | EmptyString => None
  | String c EmptyString => Some c
  | String _ rest => last_char rest
  end.

(** The initial state of the profile form, for a loaded profile:
    [{full_name: profile?.full_name || '', email: profile?.email || '',
    phone: profile?.phone || '', company: profile?.company || '',
    skills: profile?.skills?.join(', ') || ''}]. *)
Definition form_of_profile (p : Profile) : ProfileForm :=
  mkProfileForm
    (p_full_name p)
    (p_email p)
    (coalesce (p_phone p) "")
    (coalesce (p_company p) "")
    (match p_skills p with
     | Some skills => String.concat ", " skills
     | None => ""
     end).

(** Olga gives Vera a task at the rehearsal. *)
Definition db_tasked : DB :=
  exec (CreateTask (Some "olga")
          (mkTask "t-chairs" "rehearsal" (Some "vera") "Set up chairs"
             task_pending None None 30))
       db_staffed.

(** Anna holds a registration for the rehearsal, which is a draft. *)
Definition db_rehearsal : DB :=
  exec (Book (Some anna) (fetched_event rehearsal) env_anna) db_open.

(** A ticket row has its event. *)
Definition has_event (t : Ticket) : bool :=
  match tk_event t with
  | Some _ => true
  | None => false
  end.

(** ** Proof automation *)

(** Destructs the guards of a committed [INSERT]. *)
Ltac committed H :=
  unfold bind, guard in H;
  repeat match type of H with
         | context [if ?b then _ else _] => destruct b eqn:?
         end;
  try discriminate H;
  injection H as <-.

(** * Properties *)

(** ** Identity bridge *)

Section IdentityBridge.

Variable NEW : AuthUser.
Variable now : timestamptz.
Variable db : DB.

Local Abbreviation meta := (au_raw_user_meta_data NEW).

Lemma cast_user_role_label (s : string) :
  cast_user_role (Some s) =
  match user_role_of_label s with
  | Some ro => Ok (Some ro)
  | None => Err (invalid_text_representation "user_role")
  end.
Proof. reflexivity. Qed.

(** Both versions of the trigger function raise on a role text that is
    not a label of the enum: the cast is evaluated before anything
    else. *)
Lemma handle_new_user_invalid_role (s : string) :
  json_get_text meta "role" = Some s ->
  user_role_of_label s = None ->
  handle_new_user NEW now db = Err (invalid_text_representation "user_role")
  /\ InitialSchema.handle_new_user NEW now db
     = Err (invalid_text_representation "user_role").
Proof.
  intros Hrole Hlabel.
  unfold handle_new_user, InitialSchema.handle_new_user.
  rewrite Hrole, cast_user_role_label, Hlabel.
  split; reflexivity.
Qed.

(** A complete payload for a new identity. *)
Lemma handle_new_user_complete (s fn : string) (ro : user_role) :
  json_get_text meta "role" = Some s ->
  json_get_text meta "full_name" = Some fn ->
  user_role_of_label s = Some ro ->
  profile_exists (au_id NEW) db = false ->
  handle_new_user NEW now db
  = Ok (with_profiles
          (mkProfile (au_id NEW) (au_email NEW) fn
             (json_get_text meta "phone") ro None None None now now
           :: profiles db) db)
  /\ InitialSchema.handle_new_user NEW now db
     = Ok (with_profiles
             (mkProfile (au_id NEW) (au_email NEW) fn None ro None None None
                now now
              :: profiles db) db).
Proof.
  intros Hrole Hname Hlabel Hnew.
  unfold handle_new_user, InitialSchema.handle_new_user, insert_profile.
  rewrite Hrole, Hname, cast_user_role_label, Hlabel.
  cbn. rewrite Hnew. cbn. split; reflexivity.
Qed.

(** Without a role in the metadata the initial trigger function
    defaults to [attendee]; the later one passes [NULL] to a [NOT NULL]
    column. *)
Lemma handle_new_user_absent_role (fn : string) :
  json_get_text meta "role" = None ->
  json_get_text meta "full_name" = Some fn ->
  profile_exists (au_id NEW) db = false ->
  handle_new_user NEW now db = Err (not_null_violation "role")
  /\ InitialSchema.handle_new_user NEW now db
     = Ok (with_profiles
             (mkProfile (au_id NEW) (au_email NEW) fn None attendee None
                None None now now
              :: profiles db) db).
Proof.
  intros Hrole Hname Hnew.
  unfold handle_new_user, InitialSchema.handle_new_user, insert_profile.
  rewrite Hrole, Hname. cbn. rewrite Hnew. split; reflexivity.
Qed.

(** Without a full name the initial trigger function falls back to the
    e-mail address; the later one passes [NULL] to a [NOT NULL]
    column. *)
Lemma handle_new_user_absent_full_name (s : string) (ro : user_role) :
  json_get_text meta "role" = Some s ->
  user_role_of_label s = Some ro ->
  json_get_text meta "full_name" = None ->
  profile_exists (au_id NEW) db = false ->
  handle_new_user NEW now db = Err (not_null_violation "full_name")
  /\ InitialSchema.handle_new_user NEW now db
     = Ok (with_profiles
             (mkProfile (au_id NEW) (au_email NEW) (au_email NEW) None ro
                None None None now now
              :: profiles db) db).
Proof.
  intros Hrole Hlabel Hname Hnew.
  unfold handle_new_user, InitialSchema.handle_new_user, insert_profile.
  rewrite Hrole, Hname, cast_user_role_label, Hlabel.
  cbn. rewrite Hnew. split; reflexivity.
Qed.

(** Whatever the payload, an identity that has a profile gets an
    error from either version. *)
Lemma handle_new_user_existing :
  profile_exists (au_id NEW) db = true ->
  (exists e, handle_new_user NEW now db = Err e)
  /\ (exists e, InitialSchema.handle_new_user NEW now db = Err e).
Proof.
  intros Hex.
  unfold handle_new_user, InitialSchema.handle_new_user, insert_profile.
  destruct (cast_user_role (json_get_text meta "role")) as [ro|e]; cbn.
  - split.
    + destruct (json_get_text meta "full_name"); cbn; [|eauto].
      destruct ro; cbn; [|eauto]. rewrite Hex. cbn. eauto.
    + rewrite Hex. cbn. eauto.
  - split; eauto.
Qed.

End IdentityBridge.

(** C7, as amended.  For an identity that has no profile yet and a
    payload whose metadata carries a full name and a role text: when the
    text is one of the labels organizer, volunteer, attendee the bridge
    creates a profile with that role and that full name (and this is the
    provisioning the specification describes); when it is any other text
    the bridge raises the invalid-enum error and creates nothing.  Both
    versions of the trigger function agree on this. *)
Theorem identity_bridge_provisions
    (NEW : AuthUser) (now : timestamptz) (db : DB) (s fn : string)
    (Hrole : json_get_text (au_raw_user_meta_data NEW) "role" = Some s)
    (Hname : json_get_text (au_raw_user_meta_data NEW) "full_name" = Some fn)
    (Hnew : profile_exists (au_id NEW) db = false) :
  (forall ro, user_role_of_label s = Some ro ->
     handle_new_user NEW now db
     = Ok (with_profiles
             (mkProfile (au_id NEW) (au_email NEW) fn
                (json_get_text (au_raw_user_meta_data NEW) "phone") ro
                None None None now now
              :: profiles db) db)
     /\ InitialSchema.handle_new_user NEW now db
        = Ok (with_profiles
                (mkProfile (au_id NEW) (au_email NEW) fn None ro None None
                   None now now
                 :: profiles db) db)
     /\ provisioned_as_specified (handle_new_user NEW now db) NEW)
  /\ (user_role_of_label s = None ->
      handle_new_user NEW now db = Err (invalid_text_representation "user_role")
      /\ InitialSchema.handle_new_user NEW now db
         = Err (invalid_text_representation "user_role")).
Proof.
  split.
  - intros ro Hlabel.
    destruct (handle_new_user_complete NEW now db s fn ro Hrole Hname Hlabel
                Hnew) as [Hlate Hinit].
    repeat split; try assumption.
    rewrite Hlate. eexists. split; [reflexivity|].
    eexists _, _. split; [reflexivity|]. cbn.
    unfold spec_role, spec_full_name. rewrite Hrole, Hname, Hlabel.
    repeat split.
  - intros Hlabel. now apply handle_new_user_invalid_role with (s := s).
Qed.

Lemma identity_bridge_provisions_witness :
  json_get_text (au_raw_user_meta_data (signup "carl" "volunteer")) "role"
  = Some "volunteer"
  /\ json_get_text (au_raw_user_meta_data (signup "carl" "volunteer"))
       "full_name" = Some "carl"
  /\ profile_exists "carl" db_open = false
  /\ handle_new_user (signup "carl" "volunteer") 20 db_open
     = Ok (with_profiles
             (mkProfile "carl" "carl@example.org" "carl" None volunteer None
                None None 20 20 :: profiles db_open) db_open).
Proof.
  split; [reflexivity|]. split; [reflexivity|]. split; [reflexivity|].
  exact (proj1 (proj1 (identity_bridge_provisions (signup "carl" "volunteer")
                         20 db_open "volunteer" "carl"
                         eq_refl eq_refl eq_refl) volunteer eq_refl)).
Defined.

(** C7, counterexample.  A signup whose metadata names the role "admin"
    is not provisioned as an attendee: both versions of the trigger
    function raise, so no profile is created at all. *)
Lemma invalid_role_is_not_defaulted :
  handle_new_user mallory_signup 20 db_open
  = Err (invalid_text_representation "user_role")
  /\ InitialSchema.handle_new_user mallory_signup 20 db_open
     = Err (invalid_text_representation "user_role")
  /\ ~ provisioned_as_specified (handle_new_user mallory_signup 20 db_open)
         mallory_signup
  /\ ~ provisioned_as_specified
         (InitialSchema.handle_new_user mallory_signup 20 db_open)
         mallory_signup.
Proof.
  repeat split; try reflexivity;
    intros [db' [Hok _]]; vm_compute in Hok; discriminate Hok.
Qed.

(** The later trigger function also raises on a signup without
    metadata, which the initial one provisions with the defaults. *)
Lemma bare_signup_not_provisioned :
  handle_new_user bare_signup 20 db_open = Err (not_null_violation "full_name")
  /\ provisioned_as_specified
       (InitialSchema.handle_new_user bare_signup 20 db_open) bare_signup.
Proof.
  split; [reflexivity|].
  eexists. split; [reflexivity|]. eexists _, _. repeat split.
Qed.

(** C8, as amended.  Re-delivery of a new-identity event for an identity
    that has a profile creates no row and alters no profile, and it is
    an error: the trigger function raises, which rolls the statement
    back.  Both versions of the trigger function behave so. *)
Theorem redelivery_raises_and_changes_nothing
    (NEW : AuthUser) (now : timestamptz) (db : DB)
    (Hexists : profile_exists (au_id NEW) db = true) :
  (exists e, handle_new_user NEW now db = Err e)
  /\ (exists e, InitialSchema.handle_new_user NEW now db = Err e)
  /\ exec (NewUser NEW now) db = db
  /\ commit db (InitialSchema.handle_new_user NEW now db) = db.
Proof.
  destruct (handle_new_user_existing NEW now db Hexists) as [[e He] [e' He']].
  repeat split; eauto.
  - cbn. now rewrite He.
  - now rewrite He'.
Qed.

Lemma redelivery_raises_and_changes_nothing_witness :
  profile_exists (au_id (signup "anna" "attendee")) db_open = true
  /\ exec (NewUser (signup "anna" "attendee") 30) db_open = db_open.
Proof.
  split; [reflexivity|].
  exact (proj1 (proj2 (proj2 (redelivery_raises_and_changes_nothing
                                (signup "anna" "attendee") 30 db_open
                                eq_refl)))).
Defined.

(** C8, counterexample.  The scenario of the specification: a signup with
    role volunteer is provisioned, and the same event delivered again is
    not an idempotent success but the primary-key error. *)
Lemma redelivery_is_an_error :
  handle_new_user (signup "vera" "volunteer") 20 db_open
  = Ok (exec (NewUser (signup "vera" "volunteer") 20) db_open)
  /\ handle_new_user (signup "vera" "volunteer") 21
       (exec (NewUser (signup "vera" "volunteer") 20) db_open)
     = Err (unique_violation "profiles_pkey")
  /\ ~ idempotent_success
         (handle_new_user (signup "vera" "volunteer") 21
            (exec (NewUser (signup "vera" "volunteer") 20) db_open))
         (exec (NewUser (signup "vera" "volunteer") 20) db_open).
Proof.
  repeat split; try reflexivity.
  intros Hok. vm_compute in Hok. discriminate Hok.
Qed.

(** ** Reading events *)

Lemma uid_is_true (uid : option uuid) (id : uuid) :
  uid_is uid id = true <-> uid = Some id.
Proof.
  destruct uid as [u|]; cbn.
  - rewrite String.eqb_eq. split; congruence.
  - split; discriminate.
Qed.



(** ** Profile roles *)

Lemma apply_profile_updates_role (u : ProfileUpdates) (now : timestamptz)
    (p : Profile) :
  u_role u = None -> p_role (apply_profile_updates u now p) = p_role p.
Proof. intros Hu. cbn. now rewrite Hu. Qed.

(** An update leaves every role as it is when its [SET] list has no role
    column, and changes no row at all when the actor is not the
    identity of the target row. *)
Lemma update_profiles_roles (uid : option uuid) (target : uuid)
    (u : ProfileUpdates) (now : timestamptz) (db : DB) :
  u_role u = None \/ uid <> Some target ->
  map p_role (profiles (update_profiles uid target u now db))
  = map p_role (profiles db).
Proof.
  intros H. unfold update_profiles. cbn.
  induction (profiles db) as [|p ps IH]; cbn; [reflexivity|].
  rewrite IH. f_equal.
  destruct (String.eqb (p_id p) target) eqn:Hid; cbn; [|reflexivity].
  unfold profiles_update_policy.
  destruct (uid_is uid (p_id p)) eqn:Hpol; [|reflexivity].
  destruct H as [Hu | Hother].
  - now apply apply_profile_updates_role.
  - apply String.eqb_eq in Hid. apply uid_is_true in Hpol. congruence.
Qed.

Lemma form_updates_role (f : ProfileForm) : u_role (form_updates f) = None.
Proof. reflexivity. Qed.

(** C3, as amended.  An update of profiles leaves the role of every
    profile unchanged when the actor is not the identity of the row it
    targets, or when its column list does not name the role.  The update
    the profile form sends ([handleSubmit]) is of the second kind,
    whichever actor and row [updateProfile] issues it for.  (The policy
    restricts the rows an actor may update, not the columns.) *)
Theorem role_unchanged_by_update
    (uid : option uuid) (target : uuid) (u : ProfileUpdates)
    (now : timestamptz) (db : DB)
    (H : u_role u = None \/ uid <> Some target) :
  map p_role (profiles (update_profiles uid target u now db))
  = map p_role (profiles db)
  /\ forall (actor : option uuid) (row : uuid) (f : ProfileForm),
       map p_role
         (profiles
            (handleSubmit (fun updates => update_profiles actor row updates
                                            now db) f))
       = map p_role (profiles db).
Proof.
  split.
  - now apply update_profiles_roles.
  - intros actor row f. unfold handleSubmit.
    apply update_profiles_roles. left. apply form_updates_role.
Qed.

Lemma role_unchanged_by_update_witness :
  (u_role promote_to_organizer = None \/ Some "boris" <> Some "anna")
  /\ map p_role (profiles (update_profiles (Some "boris") "anna"
                             promote_to_organizer 40 db_open))
     = map p_role (profiles db_open).
Proof.
  split.
  - right. discriminate.
  - refine (proj1 (role_unchanged_by_update (Some "boris") "anna"
                     promote_to_organizer 40 db_open _)).
    right. discriminate.
Defined.

(** C3, counterexample.  Anna, an attendee, updates her own row with a
    column list that names the role: the policy lets the update through
    and she is an organizer afterwards. *)
Lemma role_changed_by_self_update :
  get_user_role (Some "anna") db_open = Some attendee
  /\ get_user_role (Some "anna")
       (exec (UpdateProfile (Some "anna") "anna" promote_to_organizer 40)
             db_open)
     = Some organizer
  /\ map p_role (profiles (update_profiles (Some "anna") "anna"
                             promote_to_organizer 40 db_open))
     <> map p_role (profiles db_open).
Proof.
  repeat split; try reflexivity. discriminate.
Qed.

(** ** Booking *)

Lemma uid_is_self (id : uuid) : uid_is (Some id) id = true.
Proof. apply String.eqb_refl. Qed.

(** What [handleRegister] does for a caller whose role is attendee: the
    checks of the [INSERT], in their order, and nothing else. *)
Lemma handleRegister_attendee (p : Profile) (event : EventProp)
    (env : RegisterEnv) (db : DB) :
  p_role p = attendee ->
  handleRegister (Some p) event env db =
  if registration_id_in_use (generated_id env) db
  then (db, failed_to_register (unique_violation "event_registrations_pkey"))
  else if ticket_in_use (ticketNumber env) db
  then (db, failed_to_register
              (unique_violation "event_registrations_ticket_number_key"))
  else if pair_registered (e_id (ep_event event)) (p_id p) db
  then (db, failed_to_register
              (unique_violation
                 "event_registrations_event_id_attendee_id_key"))
  else if negb (event_exists (e_id (ep_event event)) db)
  then (db, failed_to_register
              (foreign_key_violation "event_registrations_event_id_fkey"))
  else if negb (profile_exists (p_id p) db)
  then (db, failed_to_register
              (foreign_key_violation "event_registrations_attendee_id_fkey"))
  else (with_registrations
          (new_registration p event env :: event_registrations db) db,
        registered).
Proof.
  intros Hrole. unfold handleRegister. rewrite Hrole. cbn [user_role_eqb negb].
  unfold insert_registration, registrations_insert_policy.
  cbn [new_registration r_attendee_id r_id r_ticket_number r_event_id].
  rewrite uid_is_self. cbn [guard bind].
  destruct (registration_id_in_use (generated_id env) db);
    cbn [guard bind negb]; [reflexivity|].
  destruct (ticket_in_use (ticketNumber env) db);
    cbn [guard bind negb]; [reflexivity|].
  destruct (pair_registered (e_id (ep_event event)) (p_id p) db);
    cbn [guard bind negb]; [reflexivity|].
  destruct (event_exists (e_id (ep_event event)) db);
    cbn [guard bind negb]; [|reflexivity].
  destruct (profile_exists (p_id p) db); reflexivity.
Qed.

(** Whatever the outcome, [handleRegister] leaves the database as it was
    or adds the one new row. *)
Lemma handleRegister_registrations (profile : option Profile)
    (event : EventProp) (env : RegisterEnv) (db : DB) :
  (fst (handleRegister profile event env db) = db
   /\ snd (handleRegister profile event env db) <> registered)
  \/ (exists p, profile = Some p
      /\ ticket_in_use (ticketNumber env) db = false
      /\ event_exists (e_id (ep_event event)) db = true
      /\ handleRegister profile event env db
         = (with_registrations
              (new_registration p event env :: event_registrations db) db,
            registered)).
Proof.
  destruct profile as [p|]; [|left; split; [reflexivity|discriminate]].
  destruct (user_role_eqb (p_role p) attendee) eqn:Hrole.
  - assert (Hatt : p_role p = attendee)
      by (destruct (p_role p); cbn in Hrole; congruence).
    rewrite (handleRegister_attendee p event env db Hatt).
    destruct (registration_id_in_use (generated_id env) db);
      [left; split; [reflexivity|discriminate]|].
    destruct (ticket_in_use (ticketNumber env) db) eqn:Hticket;
      [left; split; [reflexivity|discriminate]|].
    destruct (pair_registered (e_id (ep_event event)) (p_id p) db);
      [left; split; [reflexivity|discriminate]|].
    destruct (event_exists (e_id (ep_event event)) db) eqn:Hevent;
      [|left; split; [reflexivity|discriminate]].
    destruct (profile_exists (p_id p) db);
      [|left; split; [reflexivity|discriminate]].
    right. exists p. cbn -[ticketNumber]. auto.
  - left. unfold handleRegister. rewrite Hrole. cbn.
    split; [reflexivity|discriminate].
Qed.

(** C4, as amended.  A booking request whose actor has no profile or a
    role other than attendee ends in the early return of
    [handleRegister]: no registration is inserted and nothing is
    signalled, neither a typed error nor the failure message.  Through
    the modal the same holds when the event's start time is not in the
    future, because the button is not there. *)
Theorem booking_refused_silently
    (profile : option Profile) (event : EventProp) (today : timestamptz)
    (env : RegisterEnv) (db : DB)
    (H : (forall p, profile = Some p -> p_role p <> attendee)
         \/ e_date_time (ep_event event) <= today) :
  click_register profile event today env db = (db, returned_early)
  /\ ((forall p, profile = Some p -> p_role p <> attendee) ->
      handleRegister profile event env db = (db, returned_early)).
Proof.
  assert (Hearly : (forall p, profile = Some p -> p_role p <> attendee) ->
                   handleRegister profile event env db = (db, returned_early)).
  { intros Hrole. destruct profile as [p|]; [|reflexivity].
    specialize (Hrole p eq_refl). unfold handleRegister.
    destruct (p_role p); cbn; congruence. }
  split; [|exact Hearly].
  unfold click_register.
  destruct (register_button_shown profile event today) eqn:Hshown;
    [|reflexivity].
  destruct H as [Hrole | Hpast]; [now apply Hearly|].
  unfold register_button_shown, isUpcoming in Hshown.
  apply andb_true_iff in Hshown. destruct Hshown as [Hshown _].
  apply andb_true_iff in Hshown. destruct Hshown as [_ Hup].
  apply Z.ltb_lt in Hup. lia.
Qed.

Lemma booking_refused_silently_witness :
  ((forall p, Some olga = Some p -> p_role p <> attendee)
   \/ e_date_time (ep_event (fetched_event talk)) <= 1500)
  /\ click_register (Some olga) (fetched_event talk) 1500 env_boris db_open
     = (db_open, returned_early).
Proof.
  assert (Holga : forall p, Some olga = Some p -> p_role p <> attendee).
  { intros p Hp. injection Hp as <-. discriminate. }
  split.
  - left. exact Holga.
  - exact (proj1 (booking_refused_silently (Some olga) (fetched_event talk)
                    1500 env_boris db_open (or_introl Holga))).
Defined.

(** C4, counterexample.  Anna books through the modal.  The rehearsal
    is a draft: the button is shown, and her click inserts a confirmed
    registration.  The warm-up starts at 500: the modal is rendered at
    400, her click comes at 1000, after the start, and inserts a
    confirmed registration as well.  Neither request is refused. *)
Lemma unbookable_events_are_booked :
  e_status rehearsal = ev_draft
  /\ event_registrations db_open = []
  /\ snd (click_register (Some anna) (fetched_event rehearsal) 1500 env_anna
            db_open) = registered
  /\ event_registrations
       (fst (click_register (Some anna) (fetched_event rehearsal) 1500
               env_anna db_open))
     = [new_registration anna (fetched_event rehearsal) env_anna]
  /\ e_date_time warmup <= new_date env_anna
  /\ snd (click_register (Some anna) (fetched_event warmup) 400 env_anna
            db_open) = registered
  /\ event_registrations
       (fst (click_register (Some anna) (fetched_event warmup) 400 env_anna
               db_open))
     = [new_registration anna (fetched_event warmup) env_anna].
Proof.
  repeat split; try reflexivity. vm_compute. discriminate.
Qed.

Lemma pair_registered_iff (event_id attendee_id : uuid) (db : DB) :
  pair_registered event_id attendee_id db = true
  <-> exists r, In r (event_registrations db)
                /\ r_event_id r = event_id /\ r_attendee_id r = attendee_id.
Proof.
  unfold pair_registered. rewrite existsb_exists.
  split; intros [r [Hin H]]; exists r; split; try assumption.
  - apply andb_true_iff in H. now rewrite !String.eqb_eq in H.
  - apply andb_true_iff. now rewrite !String.eqb_eq.
Qed.

(** Cancelling keeps every row and changes its status only: the keys,
    ticket numbers and pairs in use stay in use. *)
Lemma handleCancelBooking_keeps (uid : option uuid) (ticketId : uuid)
    (test : EventRegistration -> bool) (db : DB) :
  (forall r, test (mkRegistration (r_id r) (r_event_id r) (r_attendee_id r)
                     (r_registration_date r) reg_cancelled (r_ticket_number r)
                     (r_seat_number r) (r_checked_in r) (r_checked_in_at r))
             = test r) ->
  existsb test (event_registrations (handleCancelBooking uid ticketId db))
  = existsb test (event_registrations db).
Proof.
  intros Htest. unfold handleCancelBooking.
  cbn [event_registrations with_registrations].
  induction (event_registrations db) as [|r rs IH]; cbn [map existsb];
    [reflexivity|].
  rewrite IH. f_equal.
  destruct (String.eqb (r_id r) ticketId
            && registrations_update_policy uid db r); [apply Htest|reflexivity].
Qed.

(** C5, as amended.  For an attendee with a profile, an existing event
    and a fresh ticket number and key, the booking is rejected exactly
    when a registration for the pair already exists, whatever its status,
    cancelled included: the rejection is the unique-constraint failure,
    and otherwise the confirmed registration is inserted.  Cancelling
    keeps the row, so once the pair is registered a new booking is
    rejected after any cancellation too. *)
Theorem booking_rejected_iff_pair_registered
    (p : Profile) (event : EventProp) (env : RegisterEnv) (db : DB)
    (Hrole : p_role p = attendee)
    (Hprofile : profile_exists (p_id p) db = true)
    (Hevent : event_exists (e_id (ep_event event)) db = true)
    (Hkey : registration_id_in_use (generated_id env) db = false)
    (Hticket : ticket_in_use (ticketNumber env) db = false) :
  ((exists r, In r (event_registrations db)
              /\ r_event_id r = e_id (ep_event event)
              /\ r_attendee_id r = p_id p)
   <-> pair_registered (e_id (ep_event event)) (p_id p) db = true)
  /\ handleRegister (Some p) event env db
     = (if pair_registered (e_id (ep_event event)) (p_id p) db
        then (db, failed_to_register
                    (unique_violation
                       "event_registrations_event_id_attendee_id_key"))
        else (with_registrations
                (new_registration p event env :: event_registrations db) db,
              registered))
  /\ forall (uid : option uuid) (ticketId : uuid),
       pair_registered (e_id (ep_event event)) (p_id p) db = true ->
       handleRegister (Some p) event env (handleCancelBooking uid ticketId db)
       = (handleCancelBooking uid ticketId db,
          failed_to_register
            (unique_violation
               "event_registrations_event_id_attendee_id_key")).
Proof.
  split; [symmetry; apply pair_registered_iff|].
  split.
  - rewrite (handleRegister_attendee p event env db Hrole).
    now rewrite Hkey, Hticket, Hevent, Hprofile.
  - intros uid ticketId Hpair.
    rewrite (handleRegister_attendee p event env _ Hrole).
    unfold registration_id_in_use, ticket_in_use, pair_registered in *.
    rewrite !handleCancelBooking_keeps by reflexivity.
    now rewrite Hkey, Hticket, Hpair.
Qed.

Lemma booking_rejected_iff_pair_registered_witness :
  p_role anna = attendee
  /\ profile_exists (p_id anna) db_full = true
  /\ event_exists (e_id (ep_event (fetched_event talk))) db_full = true
  /\ registration_id_in_use (generated_id env_anna_again) db_full = false
  /\ ticket_in_use (ticketNumber env_anna_again) db_full = false
  /\ handleRegister (Some anna) (fetched_event talk) env_anna_again
       (handleCancelBooking (Some "anna") "r-anna" db_full)
     = (handleCancelBooking (Some "anna") "r-anna" db_full,
        failed_to_register
          (unique_violation "event_registrations_event_id_attendee_id_key")).
Proof.
  split; [reflexivity|]. split; [reflexivity|]. split; [reflexivity|].
  split; [reflexivity|]. split; [reflexivity|].
  exact (proj2 (proj2 (booking_rejected_iff_pair_registered anna
                         (fetched_event talk) env_anna_again db_full
                         eq_refl eq_refl eq_refl eq_refl eq_refl))
           (Some "anna") "r-anna" eq_refl).
Defined.

(** C5, counterexample.  Anna booked the talk and cancelled: no
    non-cancelled registration of hers exists for it, yet her new
    booking, with a fresh ticket number, is rejected by the unique
    constraint on the pair. *)
Lemma rebooking_after_cancel_is_rejected :
  map r_status (event_registrations db_cancelled) = [reg_cancelled]
  /\ spec_already_registered "talk" "anna" db_cancelled = false
  /\ ticket_in_use (ticketNumber env_anna_again) db_cancelled = false
  /\ handleRegister (Some anna) (fetched_event talk) env_anna_again db_cancelled
     = (db_cancelled,
        failed_to_register
          (unique_violation "event_registrations_event_id_attendee_id_key")).
Proof.
  repeat split; reflexivity.
Qed.

(** ** Consistency of reachable databases *)

Section ListFacts.

Context {A B : Type}.
Variable f : A -> B.

Lemma NoDup_map_filter (keep : A -> bool) (l : list A) :
  NoDup (map f l) -> NoDup (map f (filter keep l)).
Proof.
  induction l as [|x l IH]; cbn; [trivial|].
  intros Hnd. inversion Hnd as [|? ? Hnotin Hrest]; subst.
  destruct (keep x); cbn; [|auto].
  constructor; [|auto].
  intros Hin. apply Hnotin.
  apply in_map_iff in Hin. destruct Hin as [y [Hy Hin]].
  apply filter_In in Hin. apply in_map_iff. exists y. tauto.
Qed.

Lemma map_map_same (g : A -> A) (l : list A) :
  (forall x, f (g x) = f x) -> map f (map g l) = map f l.
Proof.
  intros Hg. rewrite map_map. apply map_ext. exact Hg.
Qed.

End ListFacts.

Lemma ticket_fresh_not_in (ticket : string) (db : DB) :
  ticket_in_use ticket db = false ->
  ~ In ticket (map r_ticket_number (event_registrations db)).
Proof.
  unfold ticket_in_use. intros Hfresh Hin.
  apply in_map_iff in Hin. destruct Hin as [r [Hr Hin]].
  assert (Hex : existsb (fun r => String.eqb (r_ticket_number r) ticket)
                        (event_registrations db) = true).
  { apply existsb_exists. exists r. split; [assumption|].
    now apply String.eqb_eq. }
  congruence.
Qed.

Lemma event_exists_iff (id : uuid) (db : DB) :
  event_exists id db = true <-> In id (map e_id (events db)).
Proof.
  unfold event_exists. rewrite existsb_exists, in_map_iff.
  split; intros [e [H1 H2]]; exists e.
  - apply String.eqb_eq in H2. tauto.
  - rewrite String.eqb_eq. tauto.
Qed.

(** A statement that leaves the four tables beside [profiles] alone
    keeps the database consistent. *)
Lemma consistent_same_tables (db db' : DB) :
  events db' = events db ->
  event_registrations db' = event_registrations db ->
  volunteer_assignments db' = volunteer_assignments db ->
  event_tasks db' = event_tasks db ->
  consistent db -> consistent db'.
Proof.
  unfold consistent, references_existing_events, tickets_unique,
    event_ids_unique, event_exists.
  intros -> -> -> ->. trivial.
Qed.

Lemma handle_new_user_tables (NEW : AuthUser) (now : timestamptz)
    (db db' : DB) :
  handle_new_user NEW now db = Ok db' ->
  events db' = events db
  /\ event_registrations db' = event_registrations db
  /\ volunteer_assignments db' = volunteer_assignments db
  /\ event_tasks db' = event_tasks db.
Proof.
  unfold handle_new_user, insert_profile, not_null. intros H.
  destruct (cast_user_role _) as [ro|]; cbn in H; [|discriminate H].
  destruct (json_get_text _ "full_name"); cbn in H; [|discriminate H].
  destruct ro; cbn in H; [|discriminate H].
  committed H. cbn. auto.
Qed.

(** An event that no deleted row carries the key of outlives the
    [DELETE]. *)
Lemma event_survives (doomed : Event -> bool) (db : DB) (id : uuid) :
  event_exists id db = true ->
  refers_to (filter doomed (events db)) id = false ->
  event_exists id (delete_events doomed db) = true.
Proof.
  unfold event_exists, refers_to, delete_events. cbn.
  rewrite !existsb_exists. intros [e [Hin Heq]] Hgone.
  exists e. split; [|assumption].
  apply filter_In. split; [assumption|].
  destruct (doomed e) eqn:Hd; [|reflexivity].
  assert (Hex : existsb (fun e0 => String.eqb (e_id e0) id)
                        (filter doomed (events db)) = true).
  { apply existsb_exists. exists e. split; [|assumption].
    apply filter_In. auto. }
  congruence.
Qed.

Lemma consistent_delete_events (doomed : Event -> bool) (db : DB) :
  consistent db -> consistent (delete_events doomed db).
Proof.
  intros [[Hr [Ha Ht]] [Htickets Hids]].
  repeat split.
  - intros r Hin. cbn in Hin. apply filter_In in Hin.
    destruct Hin as [Hin Hkeep]. apply negb_true_iff in Hkeep.
    apply event_survives; auto.
  - intros a Hin. cbn in Hin. apply filter_In in Hin.
    destruct Hin as [Hin Hkeep]. apply negb_true_iff in Hkeep.
    apply event_survives; auto.
  - intros t Hin. cbn in Hin. apply filter_In in Hin.
    destruct Hin as [Hin Hkeep]. apply negb_true_iff in Hkeep.
    apply event_survives; auto.
  - unfold tickets_unique. cbn. now apply NoDup_map_filter.
  - unfold event_ids_unique. cbn. now apply NoDup_map_filter.
Qed.

Lemma consistent_delete_user (id : uuid) (db : DB) :
  consistent db -> consistent (delete_user id db).
Proof.
  intros Hdb. unfold delete_user.
  destruct (profile_exists id db); [|assumption].
  destruct (consistent_delete_events
              (fun e => String.eqb (e_organizer_id e) id) db Hdb)
    as [[Hr [Ha Ht]] [Htickets Hids]].
  repeat split.
  - intros r Hin. cbn [event_registrations] in Hin.
    apply filter_In in Hin. apply (Hr r). tauto.
  - intros a Hin. cbn [volunteer_assignments] in Hin.
    apply filter_In in Hin. apply (Ha a). tauto.
  - intros t Hin. cbn [event_tasks] in Hin.
    apply filter_In in Hin. apply (Ht t). tauto.
  - unfold tickets_unique. cbn [event_registrations].
    now apply NoDup_map_filter.
  - exact Hids.
Qed.

Lemma event_exists_more (row : Event) (db : DB) (id : uuid) :
  event_exists id db = true ->
  event_exists id (with_events (row :: events db) db) = true.
Proof.
  unfold event_exists. cbn. intros ->. apply orb_true_r.
Qed.

Lemma consistent_insert_event (uid : option uuid) (row : Event) (db : DB) :
  consistent db -> consistent (commit db (insert_event uid row db)).
Proof.
  intros Hdb. destruct (insert_event uid row db) as [db'|] eqn:H;
    cbn [commit]; [|assumption].
  unfold insert_event in H. committed H.
  destruct Hdb as [[Hr [Ha Ht]] [Htickets Hids]].
  repeat split.
  - intros r Hin. apply event_exists_more. now apply Hr.
  - intros a Hin. apply event_exists_more. now apply Ha.
  - intros t Hin. apply event_exists_more. now apply Ht.
  - exact Htickets.
  - unfold event_ids_unique. cbn. constructor; [|exact Hids].
    rewrite <- event_exists_iff.
    match goal with
    | Hfresh : negb (event_exists _ _) = true |- _ =>
        apply negb_true_iff in Hfresh; congruence
    end.
Qed.

Lemma consistent_handleRegister (profile : option Profile)
    (event : EventProp) (env : RegisterEnv) (db : DB) :
  consistent db -> consistent (fst (handleRegister profile event env db)).
Proof.
  intros Hdb.
  destruct (handleRegister_registrations profile event env db)
    as [[-> _] | [p [_ [Hticket [Hevent ->]]]]]; [assumption|].
  destruct Hdb as [[Hr [Ha Ht]] [Htickets Hids]].
  cbn [fst]. repeat split.
  - intros r [<- | Hin]; [exact Hevent|now apply Hr].
  - exact Ha.
  - exact Ht.
  - unfold tickets_unique. cbn -[ticketNumber].
    constructor; [|exact Htickets].
    now apply ticket_fresh_not_in.
  - exact Hids.
Qed.

Lemma consistent_handleCancelBooking (uid : option uuid) (ticketId : uuid)
    (db : DB) :
  consistent db -> consistent (handleCancelBooking uid ticketId db).
Proof.
  intros [[Hr [Ha Ht]] [Htickets Hids]].
  repeat split; try assumption.
  - intros r Hin. cbn in Hin. apply in_map_iff in Hin.
    destruct Hin as [r0 [<- Hin]].
    specialize (Hr r0 Hin).
    destruct (String.eqb (r_id r0) ticketId
              && registrations_update_policy uid db r0); exact Hr.
  - unfold tickets_unique, handleCancelBooking. cbn.
    rewrite map_map_same; [exact Htickets|].
    intros r.
    now destruct (String.eqb (r_id r) ticketId
                  && registrations_update_policy uid db r).
Qed.

Lemma consistent_insert_assignment (uid : option uuid)
    (row : VolunteerAssignment) (db : DB) :
  consistent db -> consistent (commit db (insert_assignment uid row db)).
Proof.
  intros Hdb. destruct (insert_assignment uid row db) as [db'|] eqn:H;
    cbn [commit]; [|assumption].
  unfold insert_assignment in H. committed H.
  destruct Hdb as [[Hr [Ha Ht]] [Htickets Hids]].
  repeat split; try assumption.
  intros a [<- | Hin]; [assumption|now apply Ha].
Qed.

Lemma consistent_insert_task (uid : option uuid) (row : EventTask) (db : DB) :
  consistent db -> consistent (commit db (insert_task uid row db)).
Proof.
  intros Hdb. destruct (insert_task uid row db) as [db'|] eqn:H;
    cbn [commit]; [|assumption].
  unfold insert_task in H. committed H.
  destruct Hdb as [[Hr [Ha Ht]] [Htickets Hids]].
  repeat split; try assumption.
  intros t [<- | Hin]; [assumption|now apply Ht].
Qed.

Lemma consistent_markTaskComplete (uid : option uuid) (taskId : uuid)
    (now : timestamptz) (db : DB) :
  consistent db -> consistent (markTaskComplete uid taskId now db).
Proof.
  intros [[Hr [Ha Ht]] [Htickets Hids]].
  repeat split; try assumption.
  intros t Hin. cbn in Hin. apply in_map_iff in Hin.
  destruct Hin as [t0 [<- Hin]].
  specialize (Ht t0 Hin).
  destruct (String.eqb (t_id t0) taskId && tasks_update_policy uid db t0);
    exact Ht.
Qed.

(** Every request keeps the database consistent. *)
Lemma consistent_exec (q : request) (db : DB) :
  consistent db -> consistent (exec q db).
Proof.
  intros Hdb. destruct q; cbn [exec].
  - destruct (handle_new_user NEW now db) as [db'|] eqn:H;
      cbn [commit]; [|assumption].
    apply handle_new_user_tables in H.
    apply (consistent_same_tables db db'); tauto.
  - now apply consistent_delete_user.
  - now apply (consistent_same_tables db).
  - now apply consistent_insert_event.
  - now apply consistent_delete_events.
  - now apply consistent_handleRegister.
  - now apply consistent_handleCancelBooking.
  - now apply consistent_insert_assignment.
  - now apply consistent_insert_task.
  - now apply consistent_markTaskComplete.
Qed.

Lemma consistent_empty : consistent empty_db.
Proof.
  repeat split; try (intros ? []); constructor.
Qed.

Lemma reachable_consistent (db : DB) : reachable db -> consistent db.
Proof.
  induction 1 as [|q db _ IH]; [exact consistent_empty|].
  now apply consistent_exec.
Qed.

Lemma reachable_run (history : list request) (db : DB) :
  reachable db -> reachable (run history db).
Proof.
  revert db. induction history as [|q history IH]; intros db Hdb; cbn.
  - exact Hdb.
  - apply IH. now constructor.
Qed.

Lemma reachable_db_full : reachable db_full.
Proof.
  apply reachable_exec. apply reachable_run. constructor.
Qed.

(** ** Deleting events *)





(** ** Ticket numbers *)

(** C6, as amended.  In every reachable database the ticket numbers of
    the stored registrations are pairwise distinct.  A booking whose
    generated ticket number is already in use inserts nothing and does
    not end in success: there is one [INSERT] and no second draw, and for
    an attendee with a fresh key the call ends in the failure branch with
    the unique-constraint error. *)
Theorem ticket_numbers_unique (db : DB) (Hreach : reachable db) :
  tickets_unique db
  /\ forall (profile : option Profile) (event : EventProp) (env : RegisterEnv),
       ticket_in_use (ticketNumber env) db = true ->
       fst (handleRegister profile event env db) = db
       /\ snd (handleRegister profile event env db) <> registered
       /\ forall p, profile = Some p -> p_role p = attendee ->
            registration_id_in_use (generated_id env) db = false ->
            handleRegister profile event env db
            = (db, failed_to_register
                     (unique_violation
                        "event_registrations_ticket_number_key")).
Proof.
  split; [apply (reachable_consistent db Hreach)|].
  intros profile event env Hused.
  destruct (handleRegister_registrations profile event env db)
    as [[Hdb Hout] | [p [_ [Hfresh _]]]]; [|congruence].
  split; [exact Hdb|]. split; [exact Hout|].
  intros p -> Hrole Hkey.
  rewrite (handleRegister_attendee p event env db Hrole).
  now rewrite Hkey, Hused.
Qed.

Lemma ticket_numbers_unique_witness :
  reachable db_full
  /\ tickets_unique db_full
  /\ (ticket_in_use (ticketNumber env_boris_collides) db_full = true ->
      fst (handleRegister (Some boris) (fetched_event workshop)
             env_boris_collides db_full) = db_full).
Proof.
  split; [exact reachable_db_full|].
  split.
  - exact (proj1 (ticket_numbers_unique db_full reachable_db_full)).
  - intros Hused.
    exact (proj1 (proj2 (ticket_numbers_unique db_full reachable_db_full)
                    (Some boris) (fetched_event workshop) env_boris_collides
                    Hused)).
Defined.

(** C6, counterexample.  Boris books the workshop, which has free seats,
    and his draw repeats the ticket number of Anna's registration: the
    booking fails with the unique-constraint error and nothing is
    inserted; no other number is drawn. *)
Lemma ticket_collision_is_not_retried :
  ticketNumber env_boris_collides = ticketNumber env_anna
  /\ map r_ticket_number (event_registrations db_full)
     = [ticketNumber env_anna]
  /\ occupied "workshop" db_full < e_capacity workshop
  /\ handleRegister (Some boris) (fetched_event workshop) env_boris_collides
       db_full
     = (db_full,
        failed_to_register
          (unique_violation "event_registrations_ticket_number_key")).
Proof.
  repeat split; reflexivity.
Qed.

(** ** Capacity *)

(** The new row of a successful booking holds one more seat of its
    event. *)
Lemma occupied_after_booking (p : Profile) (event : EventProp)
    (env : RegisterEnv) (db : DB) :
  occupied (e_id (ep_event event))
    (with_registrations
       (new_registration p event env :: event_registrations db) db)
  = occupied (e_id (ep_event event)) db + 1.
Proof.
  unfold occupied. cbn -[ticketNumber Z.of_nat].
  rewrite String.eqb_refl. cbn -[ticketNumber Z.of_nat]. lia.
Qed.

(** C1, the code at the failing input.  The talk has one seat and Anna
    holds it: the database is reachable and respects the capacity of
    every event.  Boris opens the modal on the event as [fetchEvents]
    delivers it; the button is shown, his click is answered with the
    success message, and the talk then has two confirmed registrations
    for its one seat. *)
Theorem full_event_is_booked_again :
  reachable db_full
  /\ capacity_respected db_full
  /\ occupied (e_id talk) db_full = e_capacity talk
  /\ register_button_shown (Some boris) (fetched_event talk) 1500 = true
  /\ click_register (Some boris) (fetched_event talk) 1500 env_boris db_full
     = (db_overbooked, registered)
  /\ map r_status (event_registrations db_overbooked)
     = [reg_confirmed; reg_confirmed]
  /\ occupied (e_id talk) db_overbooked = 2
  /\ ~ capacity_respected db_overbooked.
Proof.
  split; [exact reachable_db_full|].
  split.
  { intros e Hin. vm_compute in Hin.
    destruct Hin as [<- | [<- | [<- | [<- | []]]]]; vm_compute; discriminate. }
  repeat (split; [reflexivity|]).
  intros Hcap.
  assert (Hin : In talk (events db_overbooked)).
  { right. right. right. left. reflexivity. }
  specialize (Hcap talk Hin). vm_compute in Hcap. now apply Hcap.
Qed.

Lemma eligible_calls_permutation (event_id : uuid)
    (calls order : list (Profile * RegisterEnv)) (db : DB) :
  Permutation calls order ->
  eligible_calls event_id calls db -> eligible_calls event_id order db.
Proof.
  intros Hperm (Hevent & Hall & Hids & Htickets & Hkeys).
  split; [exact Hevent|].
  split; [|split; [|split]].
  - intros c Hin. apply Hall.
    apply (Permutation_in c (Permutation_sym Hperm) Hin).
  - apply (Permutation_NoDup (Permutation_map _ Hperm) Hids).
  - apply (Permutation_NoDup (Permutation_map _ Hperm) Htickets).
  - apply (Permutation_NoDup (Permutation_map _ Hperm) Hkeys).
Qed.

Lemma eqb_false_of_not_in {A : Type} (f : A -> string) (x : string)
    (c : A) (l : list A) :
  ~ In x (map f l) -> In c l -> String.eqb x (f c) = false.
Proof.
  intros Hnotin Hin. apply String.eqb_neq. intros ->.
  apply Hnotin. now apply in_map.
Qed.

(** Eligible bookings all go through, in the order given, and each takes
    a seat. *)
Lemma handleRegister_each_eligible (event : EventProp)
    (calls : list (Profile * RegisterEnv)) :
  forall db : DB,
    eligible_calls (e_id (ep_event event)) calls db ->
    exists db',
      handleRegister_each event calls db
      = (db', map (fun _ => registered) calls)
      /\ occupied (e_id (ep_event event)) db'
         = occupied (e_id (ep_event event)) db + Z.of_nat (List.length calls).
Proof.
  induction calls as [|[p env] rest IH];
    intros db (Hevent & Hall & Hids & Htickets & Hkeys).
  - exists db. cbn. split; [reflexivity|lia].
  - destruct (Hall (p, env) (or_introl eq_refl))
      as (Hrole & Hprofile & Hpair & Hticket & Hkey).
    cbn [fst snd] in *.
    inversion Hids as [|? ? Hid_new Hids']; subst.
    inversion Htickets as [|? ? Hticket_new Htickets']; subst.
    inversion Hkeys as [|? ? Hkey_new Hkeys']; subst.
    set (db1 := with_registrations
                  (new_registration p event env :: event_registrations db) db).
    assert (Hstep : handleRegister (Some p) event env db = (db1, registered)).
    { rewrite (handleRegister_attendee p event env db Hrole).
      now rewrite Hkey, Hticket, Hpair, Hevent, Hprofile. }
    destruct (IH db1) as [db' [Hrest Hocc]].
    { split; [exact Hevent|].
      split; [|auto].
      intros c Hin.
      destruct (Hall c (or_intror Hin)) as (Hr & Hp & Hpa & Hti & Hke).
      split; [exact Hr|]. split; [exact Hp|].
      unfold pair_registered, ticket_in_use, registration_id_in_use, db1.
      cbn [event_registrations with_registrations existsb new_registration
           r_event_id r_attendee_id r_ticket_number r_id].
      split; [|split].
      - rewrite (eqb_false_of_not_in (fun c => p_id (fst c)) _ c rest
                   Hid_new Hin).
        rewrite andb_false_r. exact Hpa.
      - rewrite (eqb_false_of_not_in (fun c => ticketNumber (snd c)) _ c rest
                   Hticket_new Hin).
        exact Hti.
      - rewrite (eqb_false_of_not_in (fun c => generated_id (snd c)) _ c rest
                   Hkey_new Hin).
        exact Hke. }
    exists db'. cbn [handleRegister_each List.length map].
    rewrite Hstep, Hrest. split; [reflexivity|].
    rewrite Hocc. unfold db1. rewrite occupied_after_booking. lia.
Qed.

(** C2, the code on concurrent bookings.  Each booking is one [INSERT]
    statement, so an interleaving of several bookings is an order of
    their statements.  For eligible bookings of one event, in whatever
    order the statements run, every one ends with a confirmed
    registration and none is rejected: the number of seats held grows by
    the number of bookings, whatever the capacity of the event. *)
Theorem concurrent_bookings_all_confirmed
    (event : EventProp) (calls order : list (Profile * RegisterEnv)) (db : DB)
    (Heligible : eligible_calls (e_id (ep_event event)) calls db)
    (Horder : Permutation calls order) :
  exists db',
    handleRegister_each event order db
    = (db', map (fun _ => registered) order)
    /\ occupied (e_id (ep_event event)) db'
       = occupied (e_id (ep_event event)) db + Z.of_nat (List.length calls).
Proof.
  rewrite (Permutation_length Horder).
  apply handleRegister_each_eligible.
  now apply (eligible_calls_permutation _ calls).
Qed.

Lemma concurrent_bookings_all_confirmed_witness :
  eligible_calls (e_id (ep_event (fetched_event talk)))
    [(anna, env_anna); (boris, env_boris)] db_open
  /\ Permutation [(anna, env_anna); (boris, env_boris)]
                 [(boris, env_boris); (anna, env_anna)]
  /\ exists db',
       handleRegister_each (fetched_event talk)
         [(boris, env_boris); (anna, env_anna)] db_open
       = (db', [registered; registered])
       /\ occupied (e_id talk) db' = occupied (e_id talk) db_open + 2.
Proof.
  assert (Heligible : eligible_calls (e_id (ep_event (fetched_event talk)))
                        [(anna, env_anna); (boris, env_boris)] db_open).
  { split; [reflexivity|].
    split.
    { intros c [<- | [<- | []]]; repeat split; reflexivity. }
    repeat split; repeat constructor; cbn; intuition discriminate. }
  split; [exact Heligible|].
  split; [apply perm_swap|].
  exact (concurrent_bookings_all_confirmed (fetched_event talk)
           [(anna, env_anna); (boris, env_boris)]
           [(boris, env_boris); (anna, env_anna)] db_open Heligible
           (perm_swap _ _ _)).
Defined.

(** The talk with its single seat, booked by Anna and Boris in either
    order: two confirmed registrations, no rejection. *)
Lemma one_seat_two_bookings :
  e_capacity talk = 1
  /\ snd (handleRegister_each (fetched_event talk)
            [(anna, env_anna); (boris, env_boris)] db_open)
     = [registered; registered]
  /\ snd (handleRegister_each (fetched_event talk)
            [(boris, env_boris); (anna, env_anna)] db_open)
     = [registered; registered]
  /\ occupied (e_id talk)
       (fst (handleRegister_each (fetched_event talk)
               [(anna, env_anna); (boris, env_boris)] db_open)) = 2
  /\ occupied (e_id talk)
       (fst (handleRegister_each (fetched_event talk)
               [(boris, env_boris); (anna, env_anna)] db_open)) = 2.
Proof.
  repeat split; reflexivity.
Qed.

(** * Further properties of the code *)

(** ** Keys, references to profiles and capacities *)

Lemma profile_exists_iff (id : uuid) (db : DB) :
  profile_exists id db = true <-> In id (map p_id (profiles db)).
Proof.
  unfold profile_exists. rewrite existsb_exists, in_map_iff.
  split; intros [p [H1 H2]]; exists p.
  - apply String.eqb_eq in H2. tauto.
  - rewrite String.eqb_eq. tauto.
Qed.

Lemma existsb_false_not_in {A B : Type} (f : A -> B) (test : A -> bool)
    (x : B) (l : list A) :
  (forall a, f a = x -> test a = true) ->
  existsb test l = false -> ~ In x (map f l).
Proof.
  intros Htest Hnone Hin. apply in_map_iff in Hin.
  destruct Hin as [a [Ha Hin]].
  assert (Hex : existsb test l = true).
  { apply existsb_exists. exists a. auto. }
  congruence.
Qed.

(** A committed run of the trigger function added one profile, for an
    identity that had none, with the name and the role of the
    metadata. *)
Lemma handle_new_user_ok (NEW : AuthUser) (now : timestamptz) (db db' : DB) :
  handle_new_user NEW now db = Ok db' ->
  exists fn s ro,
    json_get_text (au_raw_user_meta_data NEW) "full_name" = Some fn
    /\ json_get_text (au_raw_user_meta_data NEW) "role" = Some s
    /\ user_role_of_label s = Some ro
    /\ profile_exists (au_id NEW) db = false
    /\ db' = with_profiles
               (mkProfile (au_id NEW) (au_email NEW) fn
                  (json_get_text (au_raw_user_meta_data NEW) "phone") ro
                  None None None now now :: profiles db) db.
Proof.
  unfold handle_new_user, insert_profile, not_null, cast_user_role.
  intros H.
  destruct (json_get_text _ "role") as [s|]; cbn in H.
  - destruct (user_role_of_label s) as [ro|] eqn:Hlabel; cbn in H;
      [|discriminate H].
    destruct (json_get_text _ "full_name") as [fn|]; cbn in H;
      [|discriminate H].
    unfold guard in H.
    destruct (profile_exists (au_id NEW) db) eqn:Hex; cbn in H;
      [discriminate H|].
    injection H as <-. exists fn, s, ro. auto.
  - destruct (json_get_text _ "full_name"); cbn in H; discriminate H.
Qed.

(** The outcomes of [handleRegister]: nothing changes, or every check of
    the [INSERT] passed and the one new row is there. *)
Lemma handleRegister_cases (profile : option Profile) (event : EventProp)
    (env : RegisterEnv) (db : DB) :
  (fst (handleRegister profile event env db) = db
   /\ snd (handleRegister profile event env db) <> registered)
  \/ (exists p, profile = Some p
      /\ p_role p = attendee
      /\ registration_id_in_use (generated_id env) db = false
      /\ ticket_in_use (ticketNumber env) db = false
      /\ pair_registered (e_id (ep_event event)) (p_id p) db = false
      /\ event_exists (e_id (ep_event event)) db = true
      /\ profile_exists (p_id p) db = true
      /\ handleRegister profile event env db
         = (with_registrations
              (new_registration p event env :: event_registrations db) db,
            registered)).
Proof.
  destruct profile as [p|]; [|left; split; [reflexivity|discriminate]].
  destruct (user_role_eqb (p_role p) attendee) eqn:Hrole.
  - assert (Hatt : p_role p = attendee)
      by (destruct (p_role p); cbn in Hrole; congruence).
    rewrite (handleRegister_attendee p event env db Hatt).
    destruct (registration_id_in_use (generated_id env) db) eqn:Hkey;
      [left; split; [reflexivity|discriminate]|].
    destruct (ticket_in_use (ticketNumber env) db) eqn:Hticket;
      [left; split; [reflexivity|discriminate]|].
    destruct (pair_registered (e_id (ep_event event)) (p_id p) db) eqn:Hpair;
      [left; split; [reflexivity|discriminate]|].
    destruct (event_exists (e_id (ep_event event)) db) eqn:Hevent;
      [|left; split; [reflexivity|discriminate]].
    destruct (profile_exists (p_id p) db) eqn:Hprofile;
      [|left; split; [reflexivity|discriminate]].
    right. exists p. cbn -[ticketNumber]. auto 10.
  - left. unfold handleRegister. rewrite Hrole. cbn.
    split; [reflexivity|discriminate].
Qed.

Lemma well_formed_empty : well_formed empty_db.
Proof.
  split; [|split].
  - split; [|split; [|split]].
    + intros e [].
    + intros r [].
    + intros a [].
    + intros t v [].
  - unfold keys_unique. cbn. repeat split; constructor.
  - intros e [].
Qed.

Lemma well_formed_new_user (NEW : AuthUser) (now : timestamptz) (db : DB) :
  well_formed db -> well_formed (commit db (handle_new_user NEW now db)).
Proof.
  intros Hdb. destruct (handle_new_user NEW now db) as [db'|] eqn:H;
    cbn [commit]; [|assumption].
  apply handle_new_user_ok in H.
  destruct H as (fn & s & ro & _ & _ & _ & Hnew & ->).
  destruct Hdb as [(He & Hr & Ha & Ht) [(K1 & K2 & K3 & K4 & K5 & K6) Hcap]].
  assert (Hmore : forall id, profile_exists id db = true ->
                  profile_exists id
                    (with_profiles
                       (mkProfile (au_id NEW) (au_email NEW) fn
                          (json_get_text (au_raw_user_meta_data NEW) "phone")
                          ro None None None now now :: profiles db) db)
                  = true).
  { intros id Hid. unfold profile_exists in *. cbn. rewrite Hid.
    apply orb_true_r. }
  split; [|split].
  - split; [|split; [|split]].
    + intros e Hin. apply Hmore. now apply He.
    + intros r Hin. apply Hmore. now apply Hr.
    + intros a Hin. apply Hmore. now apply Ha.
    + intros t v Hin Hv. apply Hmore. now apply (Ht t).
  - split; [|auto 10]. cbn. constructor; [|exact K1].
    rewrite <- profile_exists_iff. congruence.
  - exact Hcap.
Qed.

Lemma well_formed_update_profiles (uid : option uuid) (target : uuid)
    (u : ProfileUpdates) (now : timestamptz) (db : DB) :
  well_formed db -> well_formed (update_profiles uid target u now db).
Proof.
  intros [(He & Hr & Ha & Ht) [(K1 & K2 & K3 & K4 & K5 & K6) Hcap]].
  assert (Hids : map p_id (profiles (update_profiles uid target u now db))
                 = map p_id (profiles db)).
  { unfold update_profiles. cbn. apply map_map_same. intros p.
    now destruct (String.eqb (p_id p) target && profiles_update_policy uid p). }
  assert (Hsame : forall id, profile_exists id db = true ->
                  profile_exists id (update_profiles uid target u now db)
                  = true).
  { intros id. rewrite !profile_exists_iff, Hids. trivial. }
  split; [|split].
  - split; [|split; [|split]].
    + intros e Hin. apply Hsame. now apply He.
    + intros r Hin. apply Hsame. now apply Hr.
    + intros a Hin. apply Hsame. now apply Ha.
    + intros t v Hin Hv. apply Hsame. now apply (Ht t).
  - split; [|auto 10]. rewrite Hids. exact K1.
  - exact Hcap.
Qed.

Lemma well_formed_insert_event (uid : option uuid) (row : Event) (db : DB) :
  well_formed db -> well_formed (commit db (insert_event uid row db)).
Proof.
  intros Hdb. destruct (insert_event uid row db) as [db'|] eqn:H;
    cbn [commit]; [|assumption].
  unfold insert_event in H. committed H.
  destruct Hdb as [(He & Hr & Ha & Ht) [Hkeys Hcap]].
  split; [|split].
  - split; [|split; [|split]]; try assumption.
    intros e [<- | Hin]; [assumption|now apply He].
  - exact Hkeys.
  - intros e [<- | Hin]; [now apply Z.ltb_lt|now apply Hcap].
Qed.

Lemma well_formed_delete_events (doomed : Event -> bool) (db : DB) :
  well_formed db -> well_formed (delete_events doomed db).
Proof.
  intros [(He & Hr & Ha & Ht) [(K1 & K2 & K3 & K4 & K5 & K6) Hcap]].
  split; [|split].
  - split; [|split; [|split]].
    + intros e Hin. cbn in Hin. apply filter_In in Hin. apply He. tauto.
    + intros r Hin. cbn in Hin. apply filter_In in Hin. apply Hr. tauto.
    + intros a Hin. cbn in Hin. apply filter_In in Hin. apply Ha. tauto.
    + intros t v Hin. cbn in Hin. apply filter_In in Hin. apply Ht. tauto.
  - unfold keys_unique. cbn.
    repeat split; try assumption; now apply NoDup_map_filter.
  - intros e Hin. cbn in Hin. apply filter_In in Hin. apply Hcap. tauto.
Qed.

Lemma profile_exists_after_delete (id other : uuid) (db db1 : DB)
    (es : list Event) (rs : list EventRegistration)
    (xs : list VolunteerAssignment) (ts : list EventTask) :
  profiles db1 = profiles db ->
  other <> id ->
  profile_exists other db = true ->
  profile_exists other
    (mkDB (filter (fun p => negb (String.eqb (p_id p) id)) (profiles db1))
          es rs xs ts) = true.
Proof.
  intros Hsame Hother Hex. unfold profile_exists in *. cbn. rewrite Hsame.
  apply existsb_exists in Hex. destruct Hex as [p [Hin Hid]].
  apply existsb_exists. exists p. split; [|exact Hid].
  apply filter_In. split; [exact Hin|].
  apply negb_true_iff. apply String.eqb_neq.
  apply String.eqb_eq in Hid. congruence.
Qed.

Lemma well_formed_delete_user (id : uuid) (db : DB) :
  well_formed db -> well_formed (delete_user id db).
Proof.
  intros Hdb. unfold delete_user.
  destruct (profile_exists id db); [|assumption].
  set (owned := fun e : Event => String.eqb (e_organizer_id e) id).
  destruct (well_formed_delete_events owned db Hdb)
    as [(He & Hr & Ha & Ht) [(K1 & K2 & K3 & K4 & K5 & K6) Hcap]].
  assert (Hprofiles : profiles (delete_events owned db) = profiles db)
    by reflexivity.
  assert (Hback : forall other, profile_exists other (delete_events owned db)
                                = profile_exists other db) by reflexivity.
  split; [|split].
  - split; [|split; [|split]].
    + intros e Hin. cbn [events] in Hin.
      apply (profile_exists_after_delete id _ db (delete_events owned db));
        [exact Hprofiles| |].
      * pose proof Hin as Hkept. cbn in Hkept. apply filter_In in Hkept.
        destruct Hkept as [_ Hkept]. apply negb_true_iff in Hkept.
        now apply String.eqb_neq.
      * rewrite <- Hback. now apply He.
    + intros r Hin. cbn [event_registrations] in Hin.
      apply filter_In in Hin. destruct Hin as [Hin Hkept].
      apply negb_true_iff in Hkept.
      apply (profile_exists_after_delete id _ db (delete_events owned db));
        [exact Hprofiles| |].
      * now apply String.eqb_neq.
      * rewrite <- Hback. now apply Hr.
    + intros a Hin. cbn [volunteer_assignments] in Hin.
      apply filter_In in Hin. destruct Hin as [Hin Hkept].
      apply negb_true_iff in Hkept.
      apply (profile_exists_after_delete id _ db (delete_events owned db));
        [exact Hprofiles| |].
      * now apply String.eqb_neq.
      * rewrite <- Hback. now apply Ha.
    + intros t v Hin Hv. cbn [event_tasks] in Hin.
      apply filter_In in Hin. destruct Hin as [Hin Hkept].
      apply negb_true_iff in Hkept. rewrite Hv in Hkept.
      apply (profile_exists_after_delete id _ db (delete_events owned db));
        [exact Hprofiles| |].
      * now apply String.eqb_neq.
      * rewrite <- Hback. now apply (Ht t).
  - unfold keys_unique.
    cbn [profiles event_registrations volunteer_assignments event_tasks].
    repeat split; try assumption; now apply NoDup_map_filter.
  - exact Hcap.
Qed.

Lemma well_formed_handleRegister (profile : option Profile)
    (event : EventProp) (env : RegisterEnv) (db : DB) :
  well_formed db -> well_formed (fst (handleRegister profile event env db)).
Proof.
  intros Hdb.
  destruct (handleRegister_cases profile event env db)
    as [[-> _] | (p & _ & _ & Hkey & _ & Hpair & _ & Hprofile & ->)];
    [assumption|].
  destruct Hdb as [(He & Hr & Ha & Ht) [(K1 & K2 & K3 & K4 & K5 & K6) Hcap]].
  cbn [fst]. split; [|split].
  - split; [|split; [|split]]; try assumption.
    intros r [<- | Hin]; [exact Hprofile|now apply Hr].
  - unfold keys_unique.
    cbn [profiles event_registrations volunteer_assignments event_tasks
         with_registrations map new_registration r_id r_event_id
         r_attendee_id].
    repeat split; try assumption.
    + constructor; [|exact K2].
      eapply existsb_false_not_in; cycle 1; [exact Hkey|].
      intros x Hx. now apply String.eqb_eq.
    + constructor; [|exact K3].
      eapply existsb_false_not_in; cycle 1; [exact Hpair|].
      intros x Hx. cbn in Hx |- *. injection Hx as H1 H2.
      now rewrite H1, H2, !String.eqb_refl.
  - exact Hcap.
Qed.

Lemma well_formed_handleCancelBooking (uid : option uuid) (ticketId : uuid)
    (db : DB) :
  well_formed db -> well_formed (handleCancelBooking uid ticketId db).
Proof.
  intros [(He & Hr & Ha & Ht) [(K1 & K2 & K3 & K4 & K5 & K6) Hcap]].
  split; [|split]; [| |exact Hcap].
  - split; [|split; [|split]]; try assumption.
    intros r Hin. cbn in Hin. apply in_map_iff in Hin.
    destruct Hin as [r0 [<- Hin]]. specialize (Hr r0 Hin).
    now destruct (String.eqb (r_id r0) ticketId
                  && registrations_update_policy uid db r0).
  - unfold keys_unique, handleCancelBooking.
    cbn [profiles event_registrations volunteer_assignments event_tasks
         with_registrations].
    repeat split; try assumption.
    + rewrite map_map_same; [exact K2|]. intros r.
      now destruct (String.eqb (r_id r) ticketId
                    && registrations_update_policy uid db r).
    + rewrite map_map_same; [exact K3|]. intros r.
      now destruct (String.eqb (r_id r) ticketId
                    && registrations_update_policy uid db r).
Qed.

Lemma well_formed_insert_assignment (uid : option uuid)
    (row : VolunteerAssignment) (db : DB) :
  well_formed db -> well_formed (commit db (insert_assignment uid row db)).
Proof.
  intros Hdb. destruct (insert_assignment uid row db) as [db'|] eqn:H;
    cbn [commit]; [|assumption].
  unfold insert_assignment in H. committed H.
  destruct Hdb as [(He & Hr & Ha & Ht) [(K1 & K2 & K3 & K4 & K5 & K6) Hcap]].
  split; [|split]; [| |exact Hcap].
  - split; [|split; [|split]]; try assumption.
    intros a [<- | Hin]; [assumption|now apply Ha].
  - unfold keys_unique.
    cbn [profiles event_registrations volunteer_assignments event_tasks
         with_assignments map].
    repeat split; try assumption.
    + constructor; [|exact K4].
      match goal with
      | Hfresh : negb (existsb (fun a => String.eqb (a_id a) _) _) = true
        |- _ => apply negb_true_iff in Hfresh;
                eapply existsb_false_not_in; cycle 1; [exact Hfresh|]
      end.
      intros x Hx. now apply String.eqb_eq.
    + constructor; [|exact K5].
      match goal with
      | Hfresh : negb (existsb (fun a => String.eqb (a_event_id a) _ && _) _)
                 = true |- _ =>
          apply negb_true_iff in Hfresh;
          eapply existsb_false_not_in; cycle 1; [exact Hfresh|]
      end.
      intros x Hx. cbn in Hx |- *. injection Hx as H1 H2.
      now rewrite H1, H2, !String.eqb_refl.
Qed.

Lemma well_formed_insert_task (uid : option uuid) (row : EventTask) (db : DB) :
  well_formed db -> well_formed (commit db (insert_task uid row db)).
Proof.
  intros Hdb. destruct (insert_task uid row db) as [db'|] eqn:H;
    cbn [commit]; [|assumption].
  unfold insert_task in H. committed H.
  destruct Hdb as [(He & Hr & Ha & Ht) [(K1 & K2 & K3 & K4 & K5 & K6) Hcap]].
  split; [|split]; [| |exact Hcap].
  - split; [|split; [|split]]; try assumption.
    intros t v [<- | Hin] Hv; [|now apply (Ht t)].
    match goal with
    | Hfk : match t_volunteer_id row with _ => _ end = true |- _ =>
        now rewrite Hv in Hfk
    end.
  - unfold keys_unique.
    cbn [profiles event_registrations volunteer_assignments event_tasks
         with_tasks map].
    repeat split; try assumption.
    constructor; [|exact K6].
    match goal with
    | Hfresh : negb (existsb (fun t => String.eqb (t_id t) _) _) = true
      |- _ => apply negb_true_iff in Hfresh;
              eapply existsb_false_not_in; cycle 1; [exact Hfresh|]
    end.
    intros x Hx. now apply String.eqb_eq.
Qed.

Lemma well_formed_markTaskComplete (uid : option uuid) (taskId : uuid)
    (now : timestamptz) (db : DB) :
  well_formed db -> well_formed (markTaskComplete uid taskId now db).
Proof.
  intros [(He & Hr & Ha & Ht) [(K1 & K2 & K3 & K4 & K5 & K6) Hcap]].
  split; [|split]; [| |exact Hcap].
  - split; [|split; [|split]]; try assumption.
    intros t v Hin Hv. cbn in Hin. apply in_map_iff in Hin.
    destruct Hin as [t0 [<- Hin]]. apply (Ht t0 v Hin).
    now destruct (String.eqb (t_id t0) taskId && tasks_update_policy uid db t0).
  - unfold keys_unique, markTaskComplete.
    cbn [profiles event_registrations volunteer_assignments event_tasks
         with_tasks].
    repeat split; try assumption.
    rewrite map_map_same; [exact K6|]. intros t.
    now destruct (String.eqb (t_id t) taskId && tasks_update_policy uid db t).
Qed.

Lemma well_formed_exec (q : request) (db : DB) :
  well_formed db -> well_formed (exec q db).
Proof.
  intros Hdb. destruct q; cbn [exec].
  - now apply well_formed_new_user.
  - now apply well_formed_delete_user.
  - now apply well_formed_update_profiles.
  - now apply well_formed_insert_event.
  - now apply well_formed_delete_events.
  - now apply well_formed_handleRegister.
  - now apply well_formed_handleCancelBooking.
  - now apply well_formed_insert_assignment.
  - now apply well_formed_insert_task.
  - now apply well_formed_markTaskComplete.
Qed.

Lemma reachable_well_formed (db : DB) : reachable db -> well_formed db.
Proof.
  induction 1 as [|q db _ IH]; [exact well_formed_empty|].
  now apply well_formed_exec.
Qed.

Lemma same_key_same_row {A B : Type} (key : A -> B) (l : list A) (x y : A) :
  NoDup (map key l) -> In x l -> In y l -> key x = key y -> x = y.
Proof.
  induction l as [|z l IH]; cbn; [intros _ []|].
  intros Hnd. inversion Hnd as [|? ? Hnotin Hrest]; subst.
  intros [<- | Hx] [<- | Hy] Hkey; auto.
  - exfalso. apply Hnotin. rewrite Hkey. now apply in_map.
  - exfalso. apply Hnotin. rewrite <- Hkey. now apply in_map.
Qed.

(** X1.  In every reachable database a key identifies one row: there is
    one profile per identity, one registration per event and attendee,
    and one assignment per event and volunteer. *)
Theorem one_row_per_key (db : DB) (Hreach : reachable db) :
  (forall p q, In p (profiles db) -> In q (profiles db) ->
               p_id p = p_id q -> p = q)
  /\ (forall r s, In r (event_registrations db) ->
                  In s (event_registrations db) ->
                  r_event_id r = r_event_id s ->
                  r_attendee_id r = r_attendee_id s -> r = s)
  /\ (forall a b, In a (volunteer_assignments db) ->
                  In b (volunteer_assignments db) ->
                  a_event_id a = a_event_id b ->
                  a_volunteer_id a = a_volunteer_id b -> a = b)
  /\ (forall r s, In r (event_registrations db) ->
                  In s (event_registrations db) -> r_id r = r_id s -> r = s).
Proof.
  destruct (reachable_well_formed db Hreach)
    as [_ [(K1 & K2 & K3 & K4 & K5 & K6) _]].
  split; [|split; [|split]].
  - intros p q Hp Hq. now apply (same_key_same_row p_id (profiles db)).
  - intros r s Hr Hs He Ha.
    apply (same_key_same_row (fun r => (r_event_id r, r_attendee_id r))
             (event_registrations db)); auto.
    cbn. congruence.
  - intros a b Ha Hb He Hv.
    apply (same_key_same_row (fun a => (a_event_id a, a_volunteer_id a))
             (volunteer_assignments db)); auto.
    cbn. congruence.
  - intros r s Hr Hs.
    now apply (same_key_same_row r_id (event_registrations db)).
Qed.

Lemma one_row_per_key_witness :
  reachable db_full
  /\ forall p q, In p (profiles db_full) -> In q (profiles db_full) ->
                 p_id p = p_id q -> p = q.
Proof.
  split; [exact reachable_db_full|].
  exact (proj1 (one_row_per_key db_full reachable_db_full)).
Defined.

(** X2.  In every reachable database the organizer of each event, the
    attendee of each registration, the volunteer of each assignment and
    the volunteer of each assigned task have a profile. *)
Theorem rows_reference_existing_profiles (db : DB) (Hreach : reachable db) :
  references_existing_profiles db.
Proof.
  apply (reachable_well_formed db Hreach).
Qed.

Lemma rows_reference_existing_profiles_witness :
  reachable db_full /\ references_existing_profiles db_full.
Proof.
  split; [exact reachable_db_full|].
  exact (rows_reference_existing_profiles db_full reachable_db_full).
Defined.

(** X3.  Every event of a reachable database has a positive capacity,
    and the events page passes events without a registration count to
    the modal: so the modal offers the register button to every attendee
    for every event that has not started, however many registrations
    the event has. *)
Theorem register_button_ignores_bookings
    (db : DB) (e : Event) (p : Profile) (today : timestamptz)
    (Hreach : reachable db) (Hin : In e (events db)) :
  0 < e_capacity e
  /\ availableSeats (fetched_event e) = e_capacity e
  /\ register_button_shown (Some p) (fetched_event e) today
     = user_role_eqb (p_role p) attendee && (today <? e_date_time e).
Proof.
  destruct (reachable_well_formed db Hreach) as [_ [_ Hcap]].
  specialize (Hcap e Hin).
  assert (Hseats : availableSeats (fetched_event e) = e_capacity e).
  { unfold availableSeats. cbn. lia. }
  split; [exact Hcap|]. split; [exact Hseats|].
  unfold register_button_shown, isUpcoming. rewrite Hseats. cbn.
  apply Z.ltb_lt in Hcap. rewrite Hcap. apply andb_true_r.
Qed.

Lemma register_button_ignores_bookings_witness :
  reachable db_overbooked
  /\ In talk (events db_overbooked)
  /\ occupied (e_id talk) db_overbooked = 2
  /\ register_button_shown (Some anna) (fetched_event talk) 1500
     = user_role_eqb (p_role anna) attendee && (1500 <? e_date_time talk).
Proof.
  assert (Hreach : reachable db_overbooked).
  { apply reachable_exec. exact reachable_db_full. }
  assert (Hin : In talk (events db_overbooked)).
  { right. right. right. left. reflexivity. }
  split; [exact Hreach|]. split; [exact Hin|]. split; [reflexivity|].
  exact (proj2 (proj2 (register_button_ignores_bookings db_overbooked talk
                         anna 1500 Hreach Hin))).
Defined.

(** X4.  Deleting an identity from a reachable database leaves no trace
    of it: no profile, no event it organized, no registration,
    assignment or task of its own.  The profiles of all other identities
    stay as they are. *)
Theorem deleted_user_leaves_no_trace (id : uuid) (db : DB)
    (Hreach : reachable db) :
  no_trace_of id (delete_user id db)
  /\ forall p, In p (profiles db) -> p_id p <> id ->
               In p (profiles (delete_user id db)).
Proof.
  destruct (reachable_well_formed db Hreach) as [(He & Hr & Ha & Ht) _].
  unfold delete_user. destruct (profile_exists id db) eqn:Hex.
  - split.
    + split; [|split; [|split; [|split]]].
      * unfold profile_exists. cbn [profiles].
        destruct (existsb _ _) eqn:Hstill; [|reflexivity].
        apply existsb_exists in Hstill. destruct Hstill as [p [Hin Hid]].
        apply filter_In in Hin. destruct Hin as [_ Hkept].
        rewrite Hid in Hkept. discriminate Hkept.
      * intros e Hin. cbn in Hin. apply filter_In in Hin.
        destruct Hin as [_ Hkept]. apply negb_true_iff in Hkept.
        now apply String.eqb_neq.
      * intros r Hin. cbn [event_registrations] in Hin.
        apply filter_In in Hin. destruct Hin as [_ Hkept].
        apply negb_true_iff in Hkept. now apply String.eqb_neq.
      * intros a Hin. cbn [volunteer_assignments] in Hin.
        apply filter_In in Hin. destruct Hin as [_ Hkept].
        apply negb_true_iff in Hkept. now apply String.eqb_neq.
      * intros t Hin Hv. cbn [event_tasks] in Hin.
        apply filter_In in Hin. destruct Hin as [_ Hkept].
        rewrite Hv, String.eqb_refl in Hkept. discriminate Hkept.
    + intros p Hin Hother. cbn [profiles delete_events].
      apply filter_In. split; [exact Hin|].
      apply negb_true_iff. now apply String.eqb_neq.
  - split; [|auto].
    split; [exact Hex|].
    split; [|split; [|split]].
    + intros e Hin Hid. specialize (He e Hin). congruence.
    + intros r Hin Hid. specialize (Hr r Hin). congruence.
    + intros a Hin Hid. specialize (Ha a Hin). congruence.
    + intros t Hin Hid. specialize (Ht t id Hin Hid). congruence.
Qed.

Lemma deleted_user_leaves_no_trace_witness :
  reachable db_full
  /\ no_trace_of "anna" (delete_user "anna" db_full).
Proof.
  split; [exact reachable_db_full|].
  exact (proj1 (deleted_user_leaves_no_trace "anna" db_full
                  reachable_db_full)).
Defined.




(** X6.  When the trigger function commits, [get_user_role] returns for
    the new identity the role its metadata names, and for every other
    identity what it returned before. *)
Theorem provisioned_role_is_looked_up
    (NEW : AuthUser) (now : timestamptz) (db db' : DB)
    (Hok : handle_new_user NEW now db = Ok db') :
  (exists s, json_get_text (au_raw_user_meta_data NEW) "role" = Some s
             /\ get_user_role (Some (au_id NEW)) db' = user_role_of_label s)
  /\ forall id, id <> au_id NEW ->
                get_user_role (Some id) db' = get_user_role (Some id) db.
Proof.
  apply handle_new_user_ok in Hok.
  destruct Hok as (fn & s & ro & _ & Hrole & Hlabel & _ & ->).
  split.
  - exists s. split; [exact Hrole|].
    unfold get_user_role. cbn. now rewrite String.eqb_refl.
  - intros id Hother. unfold get_user_role. cbn.
    apply String.eqb_neq in Hother. now rewrite Hother.
Qed.

Lemma provisioned_role_is_looked_up_witness :
  handle_new_user (signup "carl" "volunteer") 20 db_open
  = Ok (exec (NewUser (signup "carl" "volunteer") 20) db_open)
  /\ exists s,
       json_get_text (au_raw_user_meta_data (signup "carl" "volunteer"))
         "role" = Some s
       /\ get_user_role (Some "carl")
            (exec (NewUser (signup "carl" "volunteer") 20) db_open)
          = user_role_of_label s.
Proof.
  split; [reflexivity|].
  exact (proj1 (provisioned_role_is_looked_up (signup "carl" "volunteer") 20
                  db_open _ eq_refl)).
Defined.

(** ** Cancelling a booking *)

Lemma map_unchanged {A : Type} (g : A -> A) (l : list A) :
  (forall x, In x l -> g x = x) -> map g l = l.
Proof.
  intros Hg. rewrite <- (map_id l) at 2. now apply map_ext_in.
Qed.


Lemma with_registrations_same (db : DB) :
  with_registrations (event_registrations db) db = db.
Proof. now destruct db. Qed.

(** The row update of [handleCancelBooking]. *)
Local Abbreviation cancelled_row uid db ticketId :=
  (fun r : EventRegistration =>
     if String.eqb (r_id r) ticketId && registrations_update_policy uid db r
     then mkRegistration (r_id r) (r_event_id r) (r_attendee_id r)
            (r_registration_date r) reg_cancelled (r_ticket_number r)
            (r_seat_number r) (r_checked_in r) (r_checked_in_at r)
     else r).





(** X8.  An actor whom the update policy admits for no registration
    with the given key (who is neither its attendee, nor the organizer of
    its event, nor a volunteer assigned to it) cancels nothing: the
    database stays as it is and no error is raised. *)
Theorem cancelling_needs_permission
    (uid : option uuid) (ticketId : uuid) (db : DB)
    (Hdenied : forall r, In r (event_registrations db) -> r_id r = ticketId ->
                         registrations_update_policy uid db r = false) :
  handleCancelBooking uid ticketId db = db.
Proof.
  unfold handleCancelBooking.
  rewrite map_unchanged; [apply with_registrations_same|].
  intros r Hin.
  destruct (String.eqb (r_id r) ticketId) eqn:Hid; cbn [andb]; [|reflexivity].
  apply String.eqb_eq in Hid. now rewrite (Hdenied r Hin Hid).
Qed.

Lemma cancelling_needs_permission_witness :
  (forall r, In r (event_registrations db_full) -> r_id r = "r-anna" ->
             registrations_update_policy (Some "boris") db_full r = false)
  /\ handleCancelBooking (Some "boris") "r-anna" db_full = db_full.
Proof.
  assert (Hdenied : forall r, In r (event_registrations db_full) ->
                              r_id r = "r-anna" ->
                              registrations_update_policy (Some "boris")
                                db_full r = false).
  { intros r [<- | []] _. reflexivity. }
  split; [exact Hdenied|].
  exact (cancelling_needs_permission (Some "boris") "r-anna" db_full Hdenied).
Defined.

(** X9.  Cancelling is idempotent, and it does not look at the status:
    a second cancellation with the same key changes nothing more, and
    after a cancellation by an admitted actor every registration with
    the key has status cancelled, whatever it was before. *)
Theorem cancelling_twice_is_cancelling_once
    (uid : option uuid) (ticketId : uuid) (db : DB) :
  handleCancelBooking uid ticketId (handleCancelBooking uid ticketId db)
  = handleCancelBooking uid ticketId db
  /\ forall r, In r (event_registrations
                       (handleCancelBooking uid ticketId db)) ->
               r_id r = ticketId ->
               registrations_update_policy uid db r = true ->
               r_status r = reg_cancelled.
Proof.
  split.
  - unfold handleCancelBooking at 1 3.
    cbn [event_registrations with_registrations handleCancelBooking].
    unfold with_registrations. cbn [profiles events volunteer_assignments
      event_tasks]. f_equal.
    unfold handleCancelBooking. cbn [event_registrations with_registrations].
    rewrite map_map. apply map_ext. intros r.
    unfold registrations_update_policy, is_organizer_of_event,
      is_assigned_volunteer.
    cbn [events volunteer_assignments with_registrations].
    destruct (String.eqb (r_id r) ticketId
              && (uid_is uid (r_attendee_id r) || _)) eqn:Hcond;
      cbn [r_id r_attendee_id r_event_id]; now rewrite Hcond.
  - intros r Hin Hid Hmay. unfold handleCancelBooking in Hin.
    cbn [event_registrations with_registrations] in Hin.
    apply in_map_iff in Hin. destruct Hin as [r0 [Hr0 Hin]].
    destruct (String.eqb (r_id r0) ticketId
              && registrations_update_policy uid db r0) eqn:Hcond.
    + now subst r.
    + subst r0. apply String.eqb_eq in Hid. now rewrite Hid, Hmay in Hcond.
Qed.

(** ** Deleting an event, once more *)

Lemma filter_keeps_all {A : Type} (keep : A -> bool) (l : list A) :
  (forall x, In x l -> keep x = true) -> filter keep l = l.
Proof.
  induction l as [|x l IH]; cbn; [reflexivity|].
  intros Hall. rewrite (Hall x (or_introl eq_refl)). f_equal. auto.
Qed.

Lemma filter_keeps_none {A : Type} (keep : A -> bool) (l : list A) :
  (forall x, In x l -> keep x = false) -> filter keep l = [].
Proof.
  induction l as [|x l IH]; cbn; [reflexivity|].
  intros Hall. rewrite (Hall x (or_introl eq_refl)). auto.
Qed.

(** A row that the cascade removes referred to the event that was to be
    deleted. *)
Lemma refers_to_doomed (uid : option uuid) (eventId id : uuid) (db : DB) :
  refers_to
    (filter (fun e => String.eqb (e_id e) eventId && events_delete_policy uid e)
            (events db)) id = true ->
  id = eventId.
Proof.
  unfold refers_to. intros Hgone. apply existsb_exists in Hgone.
  destruct Hgone as [e [Hin Hid]]. apply filter_In in Hin.
  destruct Hin as [_ Hdoomed]. apply andb_true_iff in Hdoomed.
  destruct Hdoomed as [Hkey _].
  apply String.eqb_eq in Hkey. apply String.eqb_eq in Hid. congruence.
Qed.

(** X10.  [handleDeleteEvent] by an actor who is not the organizer of
    the event with the given key (or for a key no event has) deletes
    nothing: the database stays as it is and no error is raised. *)
Theorem deleting_needs_ownership
    (uid : option uuid) (eventId : uuid) (db : DB)
    (Hdenied : forall e, In e (events db) -> e_id e = eventId ->
                         uid <> Some (e_organizer_id e)) :
  handleDeleteEvent uid eventId db = db.
Proof.
  unfold handleDeleteEvent, delete_events.
  assert (Hspared : forall e, In e (events db) ->
                    String.eqb (e_id e) eventId && events_delete_policy uid e
                    = false).
  { intros e Hin.
    destruct (String.eqb (e_id e) eventId) eqn:Hid; cbn [andb];
      [|reflexivity].
    apply String.eqb_eq in Hid. specialize (Hdenied e Hin Hid).
    unfold events_delete_policy,
      EventPoliciesInitial.organizers_can_manage_their_own_events.
    destruct (uid_is uid (e_organizer_id e)) eqn:Hown; [|reflexivity].
    now apply uid_is_true in Hown. }
  rewrite (filter_keeps_none _ (events db) Hspared).
  cbn [refers_to existsb negb].
  rewrite (filter_keeps_all
             (fun e => negb (String.eqb (e_id e) eventId
                             && events_delete_policy uid e)))
    by (intros e Hin; now rewrite (Hspared e Hin)).
  rewrite !filter_keeps_all by reflexivity.
  now destruct db.
Qed.

Lemma deleting_needs_ownership_witness :
  (forall e, In e (events db_full) -> e_id e = "talk" ->
             Some "anna" <> Some (e_organizer_id e))
  /\ handleDeleteEvent (Some "anna") "talk" db_full = db_full.
Proof.
  assert (Hdenied : forall e, In e (events db_full) -> e_id e = "talk" ->
                              Some "anna" <> Some (e_organizer_id e)).
  { intros e [<- | [<- | [<- | [<- | []]]]] _; discriminate. }
  split; [exact Hdenied|].
  exact (deleting_needs_ownership (Some "anna") "talk" db_full Hdenied).
Defined.

(** X11.  [handleDeleteEvent] removes nothing but the event with the
    given key and the rows that refer to it: all profiles, every other
    event and every registration, assignment and task of another event
    stay as they are. *)
Theorem deleting_spares_other_events
    (uid : option uuid) (eventId : uuid) (db : DB) :
  profiles (handleDeleteEvent uid eventId db) = profiles db
  /\ (forall e, In e (events db) -> e_id e <> eventId ->
                In e (events (handleDeleteEvent uid eventId db)))
  /\ (forall r, In r (event_registrations db) -> r_event_id r <> eventId ->
                In r (event_registrations (handleDeleteEvent uid eventId db)))
  /\ (forall a, In a (volunteer_assignments db) -> a_event_id a <> eventId ->
                In a (volunteer_assignments
                        (handleDeleteEvent uid eventId db)))
  /\ (forall t, In t (event_tasks db) -> t_event_id t <> eventId ->
                In t (event_tasks (handleDeleteEvent uid eventId db))).
Proof.
  unfold handleDeleteEvent, delete_events.
  cbn [profiles events event_registrations volunteer_assignments event_tasks].
  split; [reflexivity|].
  split; [|split; [|split]].
  - intros e Hin Hother. apply filter_In. split; [exact Hin|].
    apply String.eqb_neq in Hother. now rewrite Hother.
  - intros r Hin Hother. apply filter_In. split; [exact Hin|].
    apply negb_true_iff.
    destruct (refers_to _ (r_event_id r)) eqn:Hgone; [|reflexivity].
    now apply refers_to_doomed in Hgone.
  - intros a Hin Hother. apply filter_In. split; [exact Hin|].
    apply negb_true_iff.
    destruct (refers_to _ (a_event_id a)) eqn:Hgone; [|reflexivity].
    now apply refers_to_doomed in Hgone.
  - intros t Hin Hother. apply filter_In. split; [exact Hin|].
    apply negb_true_iff.
    destruct (refers_to _ (t_event_id t)) eqn:Hgone; [|reflexivity].
    now apply refers_to_doomed in Hgone.
Qed.

(** ** Completing a task *)

Lemma with_tasks_same (db : DB) : with_tasks (event_tasks db) db = db.
Proof. now destruct db. Qed.

(** X12.  Only the organizer of a task's event and the volunteer the
    task is assigned to can complete it: [markTaskComplete] by anyone
    else, and by anyone but the organizer for an unassigned task, leaves
    the database as it is, without an error. *)
Theorem completing_needs_permission
    (uid : option uuid) (taskId : uuid) (now : timestamptz) (db : DB)
    (Hdenied : forall t, In t (event_tasks db) -> t_id t = taskId ->
                 is_organizer_of_event (t_event_id t) uid db = false
                 /\ (forall v, t_volunteer_id t = Some v -> uid <> Some v)) :
  markTaskComplete uid taskId now db = db.
Proof.
  unfold markTaskComplete.
  rewrite map_unchanged; [apply with_tasks_same|].
  intros t Hin.
  destruct (String.eqb (t_id t) taskId) eqn:Hid; cbn [andb]; [|reflexivity].
  apply String.eqb_eq in Hid.
  destruct (Hdenied t Hin Hid) as [Horg Hvol].
  unfold tasks_update_policy, tasks_manage_policy. rewrite Horg. cbn [orb].
  destruct (t_volunteer_id t) as [v|]; [|reflexivity].
  destruct (uid_is uid v) eqn:Hv; [|reflexivity].
  apply uid_is_true in Hv. now contradiction (Hvol v eq_refl).
Qed.

Lemma completing_needs_permission_witness :
  (forall t, In t (event_tasks db_tasked) -> t_id t = "t-chairs" ->
     is_organizer_of_event (t_event_id t) (Some "boris") db_tasked = false
     /\ (forall v, t_volunteer_id t = Some v -> Some "boris" <> Some v))
  /\ markTaskComplete (Some "boris") "t-chairs" 50 db_tasked = db_tasked.
Proof.
  assert (Hdenied : forall t, In t (event_tasks db_tasked) ->
            t_id t = "t-chairs" ->
            is_organizer_of_event (t_event_id t) (Some "boris") db_tasked
            = false
            /\ (forall v, t_volunteer_id t = Some v -> Some "boris" <> Some v)).
  { intros t [<- | []] _. split; [reflexivity|].
    intros v Hv. injection Hv as <-. discriminate. }
  split; [exact Hdenied|].
  exact (completing_needs_permission (Some "boris") "t-chairs" 50 db_tasked
           Hdenied).
Defined.


(** ** Updating a profile *)

(** X14.  A profile update changes no row but the actor's own: whatever
    row it targets and whatever columns it names, every profile of
    another identity is in the table afterwards exactly as before, no
    profile is added or removed, and an anonymous caller changes
    nothing. *)
Theorem update_touches_own_row_only
    (uid : option uuid) (target : uuid) (u : ProfileUpdates)
    (now : timestamptz) (db : DB) (p : Profile)
    (Hin : In p (profiles db)) (Hother : uid <> Some (p_id p)) :
  In p (profiles (update_profiles uid target u now db))
  /\ map p_id (profiles (update_profiles uid target u now db))
     = map p_id (profiles db)
  /\ update_profiles None target u now db = db.
Proof.
  split; [|split].
  - unfold update_profiles. cbn [profiles with_profiles].
    apply in_map_iff. exists p. split; [|exact Hin].
    unfold profiles_update_policy.
    destruct (uid_is uid (p_id p)) eqn:Hown.
    + now apply uid_is_true in Hown.
    + now rewrite andb_false_r.
  - unfold update_profiles. cbn [profiles with_profiles].
    apply map_map_same. intros q.
    now destruct (String.eqb (p_id q) target && profiles_update_policy uid q).
  - unfold update_profiles. rewrite map_unchanged; [now destruct db|].
    intros q _. unfold profiles_update_policy. cbn [uid_is].
    now rewrite andb_false_r.
Qed.

Lemma update_touches_own_row_only_witness :
  In anna (profiles db_open)
  /\ Some "boris" <> Some (p_id anna)
  /\ In anna (profiles (update_profiles (Some "boris") "anna"
                          promote_to_organizer 40 db_open)).
Proof.
  assert (Hin : In anna (profiles db_open)).
  { right. left. reflexivity. }
  assert (Hother : Some "boris" <> Some (p_id anna)) by discriminate.
  split; [exact Hin|]. split; [exact Hother|].
  exact (proj1 (update_touches_own_row_only (Some "boris") "anna"
                  promote_to_organizer 40 db_open anna Hin Hother)).
Defined.

(** ** Ordered queries *)

Section Ordering.

Context {A : Type}.
Variable leb : A -> A -> bool.

Lemma insert_ordered_perm (x : A) (l : list A) :
  Permutation (insert_ordered leb x l) (x :: l).
Proof.
  induction l as [|y l IH]; cbn; [reflexivity|].
  destruct (leb x y); [reflexivity|].
  rewrite IH. apply perm_swap.
Qed.

Lemma order_by_perm (l : list A) : Permutation (order_by leb l) l.
Proof.
  induction l as [|x l IH]; cbn; [reflexivity|].
  rewrite insert_ordered_perm. now constructor.
Qed.

Lemma order_by_In (x : A) (l : list A) : In x (order_by leb l) <-> In x l.
Proof.
  split; apply Permutation_in;
    [apply order_by_perm|apply Permutation_sym, order_by_perm].
Qed.

Hypothesis leb_total : forall a b, leb a b = true \/ leb b a = true.
Hypothesis leb_trans :
  forall a b c, leb a b = true -> leb b c = true -> leb a c = true.

Lemma insert_ordered_sorted (x : A) (l : list A) :
  StronglySorted (fun a b => leb a b = true) l ->
  StronglySorted (fun a b => leb a b = true) (insert_ordered leb x l).
Proof.
  induction l as [|y l IH]; cbn; intros Hsorted.
  - constructor; constructor.
  - inversion Hsorted as [|? ? Hrest Hall]; subst.
    destruct (leb x y) eqn:Hxy.
    + constructor; [exact Hsorted|].
      constructor; [exact Hxy|].
      apply Forall_forall. intros z Hz.
      apply (leb_trans x y z Hxy).
      now apply (proj1 (Forall_forall _ _) Hall).
    + constructor; [now apply IH|].
      apply Forall_forall. intros z Hz.
      apply (Permutation_in _ (insert_ordered_perm x l)) in Hz.
      destruct Hz as [<- | Hz].
      * destruct (leb_total x y) as [Hle | Hle]; congruence.
      * now apply (proj1 (Forall_forall _ _) Hall).
Qed.

Lemma order_by_sorted (l : list A) :
  StronglySorted (fun a b => leb a b = true) (order_by leb l).
Proof.
  induction l as [|x l IH]; cbn; [constructor|].
  now apply insert_ordered_sorted.
Qed.

End Ordering.

Lemma sorted_by_date_time (l : list Event) :
  StronglySorted (fun a b => e_date_time a <= e_date_time b)
                 (order_by by_date_time l).
Proof.
  assert (Hsorted : StronglySorted (fun a b => by_date_time a b = true)
                                   (order_by by_date_time l)).
  { apply order_by_sorted; unfold by_date_time.
    - intros a b. rewrite !Z.leb_le. lia.
    - intros a b c. rewrite !Z.leb_le. lia. }
  induction Hsorted as [|x rest _ IH Hall]; constructor; [exact IH|].
  apply Forall_forall. intros y Hy. apply Z.leb_le.
  now apply (proj1 (Forall_forall _ _) Hall).
Qed.

(** X15.  [fetchEvents] returns, ordered by start time, exactly the
    events the read policy in force shows to the caller and that fit the
    caller's role: an organizer gets the events he or she organizes, a
    volunteer the events with an assignment of his or her own, an
    attendee the published events. *)
Theorem fetchEvents_by_role
    (select_policy : option uuid -> DB -> Event -> bool)
    (profile : Profile) (db : DB) :
  StronglySorted (fun a b => e_date_time a <= e_date_time b)
                 (fetchEvents select_policy profile db)
  /\ forall e,
       In e (fetchEvents select_policy profile db)
       <-> In e (events db)
           /\ select_policy (Some (p_id profile)) db e = true
           /\ match p_role profile with
              | organizer => e_organizer_id e = p_id profile
              | volunteer =>
                  exists a, In a (volunteer_assignments db)
                            /\ a_volunteer_id a = p_id profile
                            /\ a_event_id a = e_id e
              | attendee => e_status e = ev_published
              end.
Proof.
  unfold fetchEvents. destruct (p_role profile).
  - split; [apply sorted_by_date_time|].
    intros e. rewrite order_by_In, !filter_In, String.eqb_eq. tauto.
  - set (own := filter _ (volunteer_assignments db)).
    assert (Hown : forall a, In a own <->
                     In a (volunteer_assignments db)
                     /\ a_volunteer_id a = p_id profile).
    { intros a. unfold own. rewrite filter_In, andb_true_iff, String.eqb_eq.
      unfold assignments_select_policy.
      split; [tauto|]. intros [Hin Hvol]. repeat split; auto.
      now rewrite Hvol, uid_is_self. }
    assert (Hids : forall e, existsb (String.eqb (e_id e)) (map a_event_id own)
                             = true
                             <-> exists a, In a (volunteer_assignments db)
                                           /\ a_volunteer_id a = p_id profile
                                           /\ a_event_id a = e_id e).
    { intros e. rewrite existsb_exists. split.
      - intros [id [Hin Hid]]. apply in_map_iff in Hin.
        destruct Hin as [a [<- Hin]]. apply Hown in Hin.
        apply String.eqb_eq in Hid. exists a. intuition congruence.
      - intros [a [Hin [Hvol Hid]]]. exists (a_event_id a). split.
        + apply in_map. apply Hown. tauto.
        + apply String.eqb_eq. congruence. }
    destruct (map a_event_id own) as [|id ids] eqn:Hmap.
    + split; [constructor|].
      intros e. split; [intros []|].
      intros [_ [_ Hex]]. apply Hids in Hex. discriminate Hex.
    + split; [apply sorted_by_date_time|].
      intros e. rewrite order_by_In, !filter_In, Hids. tauto.
  - split; [apply sorted_by_date_time|].
    intros e. rewrite order_by_In, !filter_In.
    assert (Hpub : event_status_eqb (e_status e) ev_published = true
                   <-> e_status e = ev_published).
    { destruct (e_status e); cbn; split; congruence. }
    rewrite Hpub. tauto.
Qed.

(** ** The filters of the events page *)

Lemma filter_twice {A : Type} (f g : A -> bool) (l : list A) :
  filter f (filter g l) = filter (fun x => g x && f x) l.
Proof.
  induction l as [|x l IH]; cbn; [reflexivity|].
  destruct (g x); cbn; [|exact IH].
  destruct (f x); now rewrite IH.
Qed.

Lemma filter_split {A : Type} (f g : A -> bool) (l : list A) :
  (forall x, g x = negb (f x)) ->
  Permutation (filter f l ++ filter g l) l.
Proof.
  intros Hg. induction l as [|x l IH]; cbn; [reflexivity|].
  rewrite Hg. destruct (f x); cbn.
  - now constructor.
  - rewrite <- Permutation_middle. now constructor.
Qed.

Lemma filterEvents_as_filter (lower : string -> string) (events : list Event)
    (term status category : string) (today : timestamptz) :
  filterEvents lower events term status category today
  = filter (passes_filters lower term status category today) events.
Proof.
  assert (Hall : forall (l : list Event), l = filter (fun _ => true) l).
  { intros l. symmetry. now apply filter_keeps_all. }
  unfold filterEvents.
  set (searched := if non_empty term then filter _ events else events).
  set (by_status := if String.eqb status "all" then searched else _).
  assert (H1 : searched
               = filter (fun e =>
                           if non_empty term
                           then includes (lower (e_title e)) (lower term)
                                || includes (lower (e_venue e)) (lower term)
                                || includes (lower (e_category e))
                                            (lower term)
                           else true) events).
  { unfold searched. destruct (non_empty term); [reflexivity|apply Hall]. }
  assert (H2 : by_status
               = filter (fun e =>
                           if String.eqb status "all" then true
                           else if String.eqb status "upcoming"
                           then today <? e_date_time e
                           else if String.eqb status "past"
                           then e_date_time e <=? today
                           else String.eqb (event_status_label (e_status e))
                                           status) searched).
  { unfold by_status.
    destruct (String.eqb status "all"); [apply Hall|].
    destruct (String.eqb status "upcoming"); [reflexivity|].
    destruct (String.eqb status "past"); reflexivity. }
  assert (H3 : (if String.eqb category "all" then by_status
                else filter (fun e => String.eqb (e_category e) category)
                            by_status)
               = filter (fun e => if String.eqb category "all" then true
                                  else String.eqb (e_category e) category)
                        by_status).
  { destruct (String.eqb category "all"); [apply Hall|reflexivity]. }
  rewrite H3, H2, H1, !filter_twice.
  apply filter_ext. intros e. unfold passes_filters. apply andb_assoc.
Qed.

(** X16.  On the events page the status filters "upcoming" and "past"
    split what "all" shows: with the same search term and category,
    every event shown under "all" is shown under exactly one of the two.
    Filtering is idempotent, and it only ever removes events. *)
Theorem upcoming_and_past_split_all
    (lower : string -> string) (events : list Event)
    (term category : string) (today : timestamptz) :
  Permutation
    (filterEvents lower events term "upcoming" category today
     ++ filterEvents lower events term "past" category today)
    (filterEvents lower events term "all" category today)
  /\ (forall e, In e (filterEvents lower events term "upcoming" category today)
                -> ~ In e (filterEvents lower events term "past" category
                             today))
  /\ forall status,
       filterEvents lower
         (filterEvents lower events term status category today)
         term status category today
       = filterEvents lower events term status category today
       /\ incl (filterEvents lower events term status category today) events.
Proof.
  split; [|split].
  - rewrite !filterEvents_as_filter.
    set (base := fun e : Event =>
                   (if non_empty term
                    then includes (lower (e_title e)) (lower term)
                         || includes (lower (e_venue e)) (lower term)
                         || includes (lower (e_category e)) (lower term)
                    else true)
                   && (if String.eqb category "all" then true
                       else String.eqb (e_category e) category)).
    assert (Hup : filter (passes_filters lower term "upcoming" category today) events
                  = filter (fun e => today <? e_date_time e)
                           (filter base events)).
    { rewrite filter_twice. apply filter_ext. intros e.
      unfold base, passes_filters. cbn.
      destruct (if non_empty term then _ else true),
        (today <? e_date_time e),
        (if String.eqb category "all" then true else _); reflexivity. }
    assert (Hpast : filter (passes_filters lower term "past" category today) events
                    = filter (fun e => e_date_time e <=? today)
                             (filter base events)).
    { rewrite filter_twice. apply filter_ext. intros e.
      unfold base, passes_filters. cbn.
      destruct (if non_empty term then _ else true),
        (e_date_time e <=? today),
        (if String.eqb category "all" then true else _); reflexivity. }
    assert (Hall : filter (passes_filters lower term "all" category today) events
                   = filter base events).
    { apply filter_ext. intros e. unfold base, passes_filters. cbn.
      now rewrite andb_true_r. }
    rewrite Hup, Hpast, Hall. apply filter_split.
    intros e. rewrite Z.leb_antisym. reflexivity.
  - intros e. rewrite !filterEvents_as_filter, !filter_In.
    unfold passes_filters. cbn.
    intros [_ Hup] [_ Hpast].
    apply andb_true_iff in Hup. destruct Hup as [Hup _].
    apply andb_true_iff in Hup. destruct Hup as [_ Hup].
    apply andb_true_iff in Hpast. destruct Hpast as [Hpast _].
    apply andb_true_iff in Hpast. destruct Hpast as [_ Hpast].
    apply Z.ltb_lt in Hup. apply Z.leb_le in Hpast. lia.
  - intros status. rewrite !filterEvents_as_filter. split.
    + rewrite filter_twice. apply filter_ext. intros e.
      now destruct (passes_filters lower term status category today e).
    + apply incl_filter.
Qed.

(** ** The tickets page *)

Lemma filter_split_in {A : Type} (f g : A -> bool) (l : list A) :
  (forall x, In x l -> g x = negb (f x)) ->
  Permutation (filter f l ++ filter g l) l.
Proof.
  induction l as [|x l IH]; cbn; [reflexivity|].
  intros Hg. rewrite (Hg x (or_introl eq_refl)).
  assert (Hrest : Permutation (filter f l ++ filter g l) l) by auto.
  destruct (f x); cbn.
  - now constructor.
  - rewrite <- Permutation_middle. now constructor.
Qed.

Lemma filter_of_map {A B : Type} (f : B -> bool) (g : A -> B) (l : list A) :
  filter f (map g l) = map g (filter (fun x => f (g x)) l).
Proof.
  induction l as [|x l IH]; cbn; [reflexivity|].
  destruct (f (g x)); cbn; now rewrite IH.
Qed.

Lemma sorted_by_registration_date (l : list EventRegistration) :
  StronglySorted (fun a b => r_registration_date b <= r_registration_date a)
                 (order_by by_registration_date_desc l).
Proof.
  assert (Hsorted : StronglySorted
                      (fun a b => by_registration_date_desc a b = true)
                      (order_by by_registration_date_desc l)).
  { apply order_by_sorted; unfold by_registration_date_desc.
    - intros a b. rewrite !Z.leb_le. lia.
    - intros a b c. rewrite !Z.leb_le. lia. }
  induction Hsorted as [|x rest _ IH Hall]; constructor; [exact IH|].
  apply Forall_forall. intros y Hy. apply Z.leb_le.
  now apply (proj1 (Forall_forall _ _) Hall).
Qed.

Lemma ticket_rows_registrations
    (select_policy : option uuid -> DB -> Event -> bool)
    (profile : Profile) (db : DB) :
  map tk_registration (ticket_rows select_policy profile db)
  = order_by by_registration_date_desc
      (filter (fun r => String.eqb (r_attendee_id r) (p_id profile)
                        && registrations_select_policy
                             (Some (p_id profile)) db r)
              (event_registrations db)).
Proof.
  unfold ticket_rows. rewrite map_map. cbn [tk_registration]. apply map_id.
Qed.

(** The rows of the tickets page are the registrations of the caller. *)
Lemma ticket_rows_own
    (select_policy : option uuid -> DB -> Event -> bool)
    (profile : Profile) (db : DB) (r : EventRegistration) :
  In r (map tk_registration (ticket_rows select_policy profile db))
  <-> In r (event_registrations db) /\ r_attendee_id r = p_id profile.
Proof.
  rewrite ticket_rows_registrations, order_by_In, filter_In, andb_true_iff,
    String.eqb_eq.
  split; [tauto|]. intros [Hin Hown]. repeat split; auto.
  unfold registrations_select_policy. now rewrite Hown, uid_is_self.
Qed.

(** X17.  The tickets page lists exactly the caller's own registrations,
    newest first.  The rows whose event the caller may read are split
    between the upcoming and the past tickets, each in exactly one of
    the two lists; a row without a readable event is in neither. *)
Theorem tickets_are_own_and_split
    (select_policy : option uuid -> DB -> Event -> bool)
    (profile : Profile) (today : timestamptz) (db : DB) :
  (forall r, In r (map tk_registration
                     (ticket_rows select_policy profile db))
             <-> In r (event_registrations db)
                 /\ r_attendee_id r = p_id profile)
  /\ StronglySorted
       (fun a b => r_registration_date b <= r_registration_date a)
       (map tk_registration (ticket_rows select_policy profile db))
  /\ Permutation
       (fst (fetchTickets select_policy profile today db)
        ++ snd (fetchTickets select_policy profile today db))
       (filter has_event (ticket_rows select_policy profile db))
  /\ forall t, In t (fst (fetchTickets select_policy profile today db)) ->
               ~ In t (snd (fetchTickets select_policy profile today db)).
Proof.
  split; [intros r; apply ticket_rows_own|].
  split; [rewrite ticket_rows_registrations;
          apply sorted_by_registration_date|].
  unfold fetchTickets. cbn [fst snd].
  set (data := ticket_rows select_policy profile db).
  split.
  - assert (Hup : filter (ticket_upcoming today) data
                  = filter (ticket_upcoming today) (filter has_event data)).
    { rewrite filter_twice. apply filter_ext. intros t.
      unfold has_event, ticket_upcoming. now destruct (tk_event t). }
    assert (Hpast : filter (ticket_past today) data
                    = filter (ticket_past today) (filter has_event data)).
    { rewrite filter_twice. apply filter_ext. intros t.
      unfold has_event, ticket_past. now destruct (tk_event t). }
    rewrite Hup, Hpast. apply filter_split_in.
    intros t Hin. apply filter_In in Hin. destruct Hin as [_ Hev].
    unfold has_event, ticket_past, ticket_upcoming in *.
    destruct (tk_event t); [|discriminate Hev].
    apply Z.leb_antisym.
  - intros t Hup Hpast.
    apply filter_In in Hup. apply filter_In in Hpast.
    destruct Hup as [_ Hup]. destruct Hpast as [_ Hpast].
    unfold ticket_upcoming, ticket_past in *.
    destruct (tk_event t); [|discriminate Hup].
    apply Z.ltb_lt in Hup. apply Z.leb_le in Hpast. lia.
Qed.

Lemma find_none {A : Type} (test : A -> bool) (l : list A) :
  (forall x, In x l -> test x = false) -> find test l = None.
Proof.
  induction l as [|x l IH]; cbn; [reflexivity|].
  intros Hall. rewrite (Hall x (or_introl eq_refl)). auto.
Qed.

(** X18.  A registration whose event the read policy hides from the
    caller is fetched without its event and shown neither among the
    upcoming nor among the past tickets. *)
Theorem ticket_of_hidden_event_is_not_shown
    (select_policy : option uuid -> DB -> Event -> bool)
    (profile : Profile) (today : timestamptz) (db : DB) (t : Ticket)
    (Hin : In t (ticket_rows select_policy profile db))
    (Hhidden : forall e, In e (events db) ->
                 e_id e = r_event_id (tk_registration t) ->
                 select_policy (Some (p_id profile)) db e = false) :
  tk_event t = None
  /\ ~ In t (fst (fetchTickets select_policy profile today db))
  /\ ~ In t (snd (fetchTickets select_policy profile today db)).
Proof.
  assert (Hnone : tk_event t = None).
  { unfold ticket_rows in Hin. apply in_map_iff in Hin.
    destruct Hin as [r [<- _]]. cbn [tk_event tk_registration] in *.
    apply find_none. intros e He.
    destruct (String.eqb (e_id e) (r_event_id r)) eqn:Hid; cbn [andb];
      [|reflexivity].
    apply String.eqb_eq in Hid. now apply Hhidden. }
  split; [exact Hnone|].
  unfold fetchTickets. cbn [fst snd].
  split; intros Hshown; apply filter_In in Hshown;
    destruct Hshown as [_ Hshown];
    unfold ticket_upcoming, ticket_past in Hshown;
    rewrite Hnone in Hshown; discriminate Hshown.
Qed.

Lemma ticket_of_hidden_event_is_not_shown_witness :
  In (mkTicket (new_registration anna (fetched_event rehearsal) env_anna) None)
     (ticket_rows EventPoliciesInitial.events_select anna db_rehearsal)
  /\ (forall e, In e (events db_rehearsal) -> e_id e = "rehearsal" ->
                EventPoliciesInitial.events_select (Some "anna") db_rehearsal e
                = false)
  /\ ~ In (mkTicket (new_registration anna (fetched_event rehearsal) env_anna)
             None)
          (fst (fetchTickets EventPoliciesInitial.events_select anna 1500
                  db_rehearsal)).
Proof.
  assert (Hin : In (mkTicket (new_registration anna (fetched_event rehearsal)
                                env_anna) None)
                   (ticket_rows EventPoliciesInitial.events_select anna
                      db_rehearsal)).
  { left. reflexivity. }
  assert (Hhidden : forall e, In e (events db_rehearsal) ->
                      e_id e = "rehearsal" ->
                      EventPoliciesInitial.events_select (Some "anna")
                        db_rehearsal e = false).
  { intros e [<- | [<- | [<- | [<- | []]]]] Hid;
      try discriminate Hid; reflexivity. }
  split; [exact Hin|]. split; [exact Hhidden|].
  exact (proj1 (proj2 (ticket_of_hidden_event_is_not_shown
                         EventPoliciesInitial.events_select anna 1500
                         db_rehearsal _ Hin Hhidden))).
Defined.

(** X19.  A successful booking is on the caller's tickets page at once:
    the new registration, confirmed and with its ticket number, is among
    the fetched rows, and when the caller may read its event it is among
    the upcoming or the past tickets. *)
Theorem booked_ticket_is_listed
    (select_policy : option uuid -> DB -> Event -> bool)
    (p : Profile) (event : EventProp) (env : RegisterEnv)
    (today : timestamptz) (db db' : DB)
    (Hbooked : handleRegister (Some p) event env db = (db', registered)) :
  exists t,
    In t (ticket_rows select_policy p db')
    /\ tk_registration t = new_registration p event env
    /\ r_status (tk_registration t) = reg_confirmed
    /\ r_ticket_number (tk_registration t) = ticketNumber env
    /\ (has_event t = true ->
        In t (fst (fetchTickets select_policy p today db'))
        \/ In t (snd (fetchTickets select_policy p today db'))).
Proof.
  destruct (handleRegister_cases (Some p) event env db)
    as [[_ Hnot] | (q & Hq & _ & _ & _ & _ & _ & _ & Hstep)].
  { rewrite Hbooked in Hnot. now contradiction Hnot. }
  injection Hq as <-. rewrite Hbooked in Hstep. injection Hstep as ->.
  assert (Hrow : In (new_registration p event env)
                    (map tk_registration
                       (ticket_rows select_policy p
                          (with_registrations
                             (new_registration p event env
                              :: event_registrations db) db)))).
  { apply ticket_rows_own. split; [now left|reflexivity]. }
  apply in_map_iff in Hrow. destruct Hrow as [t [Ht Hin]].
  exists t. split; [exact Hin|]. split; [exact Ht|].
  rewrite Ht. split; [reflexivity|]. split; [reflexivity|].
  intros Hev. unfold fetchTickets. cbn [fst snd]. rewrite !filter_In.
  unfold has_event in Hev. unfold ticket_upcoming, ticket_past.
  destruct (tk_event t) as [e|]; [|discriminate Hev].
  destruct (today <? e_date_time e) eqn:Hup; [now left|right].
  split; [exact Hin|]. apply Z.ltb_ge in Hup. now apply Z.leb_le.
Qed.

Lemma booked_ticket_is_listed_witness :
  handleRegister (Some anna) (fetched_event talk) env_anna db_open
  = (db_full, registered)
  /\ exists t,
       In t (ticket_rows events_select anna db_full)
       /\ tk_registration t
          = new_registration anna (fetched_event talk) env_anna
       /\ r_status (tk_registration t) = reg_confirmed
       /\ r_ticket_number (tk_registration t) = ticketNumber env_anna
       /\ (has_event t = true ->
           In t (fst (fetchTickets events_select anna 1500 db_full))
           \/ In t (snd (fetchTickets events_select anna 1500 db_full))).
Proof.
  split; [reflexivity|].
  exact (booked_ticket_is_listed events_select anna (fetched_event talk)
           env_anna 1500 db_open db_full eq_refl).
Defined.

Lemma insert_ordered_map {A : Type} (leb : A -> A -> bool) (g : A -> A)
    (x : A) (l : list A) :
  (forall a b, leb (g a) (g b) = leb a b) ->
  insert_ordered leb (g x) (map g l) = map g (insert_ordered leb x l).
Proof.
  intros Hg. induction l as [|y l IH]; cbn; [reflexivity|].
  rewrite Hg. destruct (leb x y); cbn; [reflexivity|]. now rewrite IH.
Qed.

Lemma order_by_map {A : Type} (leb : A -> A -> bool) (g : A -> A)
    (l : list A) :
  (forall a b, leb (g a) (g b) = leb a b) ->
  order_by leb (map g l) = map g (order_by leb l).
Proof.
  intros Hg. unfold order_by.
  induction l as [|x l IH]; cbn; [reflexivity|].
  rewrite IH. now apply insert_ordered_map.
Qed.

Lemma find_ext {A : Type} (f g : A -> bool) (l : list A) :
  (forall x, f x = g x) -> find f l = find g l.
Proof.
  intros Hfg. induction l as [|x l IH]; cbn; [reflexivity|].
  rewrite Hfg, IH. reflexivity.
Qed.

(** X20.  After a cancellation by the signed-in attendee the tickets
    page does not fetch again but rewrites the status in its list of
    upcoming tickets.  Whenever the cancellation does not change which
    events the caller may read, that list equals the one a new fetch
    would return. *)
Theorem page_after_cancel_matches_database
    (select_policy : option uuid -> DB -> Event -> bool)
    (p : Profile) (ticketId : uuid) (today : timestamptz) (db : DB)
    (Hpolicy : forall e,
        select_policy (Some (p_id p))
          (handleCancelBooking (Some (p_id p)) ticketId db) e
        = select_policy (Some (p_id p)) db e) :
  fst (fetchTickets select_policy p today
         (handleCancelBooking (Some (p_id p)) ticketId db))
  = cancel_on_page ticketId (fst (fetchTickets select_policy p today db)).
Proof.
  set (uid := Some (p_id p)).
  set (cancelled := fun r : EventRegistration =>
         mkRegistration (r_id r) (r_event_id r) (r_attendee_id r)
           (r_registration_date r) reg_cancelled (r_ticket_number r)
           (r_seat_number r) (r_checked_in r) (r_checked_in_at r)).
  set (g := fun r : EventRegistration =>
         if String.eqb (r_id r) ticketId
            && registrations_update_policy uid db r
         then cancelled r else r).
  set (own := fun r : EventRegistration =>
         String.eqb (r_attendee_id r) (p_id p)
         && registrations_select_policy uid db r).
  set (join := fun (d : DB) (r : EventRegistration) =>
         mkTicket r (find (fun e => String.eqb (e_id e) (r_event_id r)
                                    && select_policy uid d e) (events db))).
  set (rows := order_by by_registration_date_desc
                 (filter own (event_registrations db))).
  assert (Hg_keys : forall r, r_attendee_id (g r) = r_attendee_id r
                              /\ r_event_id (g r) = r_event_id r
                              /\ r_registration_date (g r)
                                 = r_registration_date r
                              /\ r_id (g r) = r_id r).
  { intros r. unfold g.
    now destruct (String.eqb (r_id r) ticketId
                  && registrations_update_policy uid db r). }
  assert (Hown : forall r, own (g r) = own r).
  { intros r. unfold own, registrations_select_policy.
    destruct (Hg_keys r) as (-> & -> & _). reflexivity. }
  assert (Hafter : ticket_rows select_policy p
                     (handleCancelBooking uid ticketId db)
                   = map (fun r => join db (g r)) rows).
  { unfold ticket_rows, handleCancelBooking.
    cbn [event_registrations events with_registrations].
    change (filter _ (map _ (event_registrations db)))
      with (filter own (map g (event_registrations db))).
    rewrite filter_of_map.
    replace (filter (fun r => own (g r)) (event_registrations db))
      with (filter own (event_registrations db))
      by (symmetry; apply filter_ext; exact Hown).
    rewrite order_by_map.
    - rewrite map_map. apply map_ext. intros r. unfold join. f_equal.
      apply find_ext. intros e. f_equal. apply Hpolicy.
    - intros a b. unfold by_registration_date_desc.
      destruct (Hg_keys a) as (_ & _ & -> & _).
      destruct (Hg_keys b) as (_ & _ & -> & _). reflexivity. }
  assert (Hbefore : ticket_rows select_policy p db = map (join db) rows)
    by reflexivity.
  unfold fetchTickets. cbn [fst]. fold uid. rewrite Hafter, Hbefore.
  unfold cancel_on_page. rewrite !filter_of_map, map_map.
  assert (Hsame : forall r, ticket_upcoming today (join db (g r))
                            = ticket_upcoming today (join db r)).
  { intros r. unfold ticket_upcoming, join. cbn [tk_event].
    destruct (Hg_keys r) as (_ & -> & _). reflexivity. }
  replace (filter (fun r => ticket_upcoming today (join db (g r))) rows)
    with (filter (fun r => ticket_upcoming today (join db r)) rows)
    by (symmetry; apply filter_ext; exact Hsame).
  apply map_ext_in. intros r Hin. apply filter_In in Hin.
  destruct Hin as [Hin _]. apply order_by_In in Hin. apply filter_In in Hin.
  destruct Hin as [_ Hmine]. unfold own in Hmine.
  apply andb_true_iff in Hmine. destruct Hmine as [Hmine _].
  apply String.eqb_eq in Hmine.
  assert (Hmay : registrations_update_policy uid db r = true).
  { unfold registrations_update_policy, uid. rewrite Hmine.
    now rewrite uid_is_self. }
  unfold join, g. cbn [tk_registration tk_event].
  rewrite Hmay, andb_true_r.
  destruct (String.eqb (r_id r) ticketId); reflexivity.
Qed.

Lemma page_after_cancel_matches_database_witness :
  (forall e,
     events_select (Some (p_id anna))
       (handleCancelBooking (Some (p_id anna)) "r-anna" db_full) e
     = events_select (Some (p_id anna)) db_full e)
  /\ fst (fetchTickets events_select anna 1500
            (handleCancelBooking (Some (p_id anna)) "r-anna" db_full))
     = cancel_on_page "r-anna"
         (fst (fetchTickets events_select anna 1500 db_full)).
Proof.
  assert (Hpolicy : forall e,
            events_select (Some (p_id anna))
              (handleCancelBooking (Some (p_id anna)) "r-anna" db_full) e
            = events_select (Some (p_id anna)) db_full e).
  { intros e. reflexivity. }
  split; [exact Hpolicy|].
  exact (page_after_cancel_matches_database events_select anna "r-anna" 1500
           db_full Hpolicy).
Defined.
(** ** The skills field of the profile form *)

Lemma trim_start_first (s : string) (c : ascii) :
  first_char (trim_start s) = Some c -> is_space c = false.
Proof.
  induction s as [|a rest IH]; cbn; [discriminate|].
  destruct (is_space a) eqn:Ha; [exact IH|].
  cbn. intros H. injection H as <-. exact Ha.
Qed.

Lemma trim_end_first (s : string) (c : ascii) :
  first_char (trim_end s) = Some c -> first_char s = Some c.
Proof.
  destruct s as [|a rest]; cbn; [discriminate|].
  destruct (trim_end rest); [destruct (is_space a)|]; cbn; congruence.
Qed.

Lemma trim_end_last (s : string) (c : ascii) :
  last_char (trim_end s) = Some c -> is_space c = false.
Proof.
  induction s as [|a rest IH]; cbn; [discriminate|].
  destruct (trim_end rest) as [|k kept] eqn:Hrest.
  - destruct (is_space a) eqn:Ha; cbn; [discriminate|].
    intros H. injection H as <-. exact Ha.
  - exact IH.
Qed.

Lemma trim_start_fixed (s : string) :
  (forall c, first_char s = Some c -> is_space c = false) ->
  trim_start s = s.
Proof.
  destruct s as [|a rest]; cbn; [reflexivity|].
  intros H. now rewrite (H a eq_refl).
Qed.

Lemma trim_end_fixed (s : string) :
  (forall c, last_char s = Some c -> is_space c = false) ->
  trim_end s = s.
Proof.
  induction s as [|a rest IH]; cbn; [reflexivity|].
  destruct rest as [|b rest'].
  - intros H. cbn. now rewrite (H a eq_refl).
  - intros H. rewrite (IH H). reflexivity.
Qed.

Lemma trim_first (s : string) (c : ascii) :
  first_char (trim s) = Some c -> is_space c = false.
Proof.
  intros H. apply (trim_start_first s). now apply trim_end_first.
Qed.

Lemma trim_trim (s : string) : trim (trim s) = trim s.
Proof.
  unfold trim at 1.
  rewrite (trim_start_fixed (trim s)) by apply trim_first.
  apply trim_end_fixed. apply trim_end_last.
Qed.

Lemma trim_start_chars (s : string) (c : ascii) :
  In c (list_ascii_of_string (trim_start s)) ->
  In c (list_ascii_of_string s).
Proof.
  induction s as [|a rest IH]; cbn; [tauto|].
  destruct (is_space a); cbn; tauto.
Qed.

Lemma trim_end_chars (s : string) (c : ascii) :
  In c (list_ascii_of_string (trim_end s)) ->
  In c (list_ascii_of_string s).
Proof.
  induction s as [|a rest IH]; cbn; [tauto|].
  destruct (trim_end rest) as [|k kept].
  - destruct (is_space a); cbn; tauto.
  - cbn in *. tauto.
Qed.

Lemma split_commas_comma_free (s piece : string) :
  In piece (split_commas s) ->
  ~ In ","%char (list_ascii_of_string piece).
Proof.
  revert piece.
  induction s as [|a rest IH]; cbn; intros piece.
  - intros [<-|[]]. cbn. tauto.
  - destruct (Ascii.eqb_spec a ","%char) as [->|Ha].
    + intros [<-|H]; [cbn; tauto|now apply IH].
    + destruct (split_commas rest) as [|first others].
      * intros [<-|[]]. cbn. intros [H|[]]. congruence.
      * intros [<-|H].
        -- cbn. intros [H|H]; [congruence|].
           now apply (IH first); [left|].
        -- apply IH. now right.
Qed.

Lemma split_commas_single (s : string) :
  ~ In ","%char (list_ascii_of_string s) -> split_commas s = [s].
Proof.
  induction s as [|a rest IH]; cbn; [reflexivity|].
  intros H. destruct (Ascii.eqb_spec a ","%char) as [->|Ha]; [tauto|].
  rewrite IH by tauto. reflexivity.
Qed.

Lemma split_commas_app (s rest : string) :
  ~ In ","%char (list_ascii_of_string s) ->
  split_commas (s ++ String "," rest) = s :: split_commas rest.
Proof.
  induction s as [|a s' IH]; cbn; [reflexivity|].
  intros H. destruct (Ascii.eqb_spec a ","%char) as [->|Ha]; [tauto|].
  rewrite IH by tauto. reflexivity.
Qed.

Lemma split_commas_after_space (s : string) :
  map trim (split_commas (String " " s)) = map trim (split_commas s).
Proof.
  cbn [split_commas]. change (Ascii.eqb " " ",") with false. cbn iota.
  destruct (split_commas s) as [|first others] eqn:Hs.
  - destruct s; cbn in Hs; [discriminate|].
    destruct (Ascii.eqb a ","); [discriminate|].
    destruct (split_commas s); discriminate.
  - reflexivity.
Qed.

Lemma parsed_skill_kept (text s : string) :
  In s (filter non_empty (map trim (split_commas text))) ->
  s <> "" /\ ~ In ","%char (list_ascii_of_string s) /\ trim s = s.
Proof.
  intros H. apply filter_In in H as [H Hs].
  apply in_map_iff in H as (piece & <- & Hpiece).
  split; [|split].
  - intros E. now rewrite E in Hs.
  - intros H. apply (split_commas_comma_free text piece Hpiece).
    apply trim_start_chars. apply trim_end_chars. exact H.
  - apply trim_trim.
Qed.

Lemma skills_round_trip (skills : list string) :
  skills <> [] ->
  (forall s, In s skills ->
     s <> "" /\ ~ In ","%char (list_ascii_of_string s) /\ trim s = s) ->
  map trim (split_commas (String.concat ", " skills)) = skills.
Proof.
  induction skills as [|s rest IH]; [congruence|].
  intros _ Hkept.
  destruct (Hkept s (or_introl eq_refl)) as (_ & Hcomma & Htrim).
  destruct rest as [|t rest'].
  - cbn. rewrite split_commas_single by exact Hcomma.
    cbn. now rewrite Htrim.
  - change (String.concat ", " (s :: t :: rest'))
      with (s ++ String "," (String " " (String.concat ", " (t :: rest')))).
    rewrite split_commas_app by exact Hcomma.
    cbn [map]. rewrite split_commas_after_space, Htrim.
    f_equal. apply IH; [discriminate|].
    intros s' Hs'. apply Hkept. now right.
Qed.

Lemma skills_reparsed (skills : list string) :
  (forall s, In s skills ->
     s <> "" /\ ~ In ","%char (list_ascii_of_string s) /\ trim s = s) ->
  (if non_empty (String.concat ", " skills)
   then filter non_empty
          (map trim (split_commas (String.concat ", " skills)))
   else [])
  = skills.
Proof.
  intros Hkept. destruct skills as [|s rest]; [reflexivity|].
  rewrite skills_round_trip by (discriminate || exact Hkept).
  rewrite filter_keeps_all.
  - destruct (Hkept s (or_introl eq_refl)) as (Hs & _).
    destruct s as [|a s']; [congruence|].
    destruct rest; reflexivity.
  - intros s' Hs'. destruct (Hkept s' Hs') as (Hne & _).
    destruct s'; [congruence|reflexivity].
Qed.

(** X21.  The skills [handleSubmit] sends: whatever the text of the
    skills field, no skill of the list is empty, none contains a comma,
    and none begins or ends with white space. *)
Theorem sent_skills_are_trimmed (f : ProfileForm) :
  exists skills,
    u_skills (form_updates f) = Some (Some skills) /\
    forall s, In s skills ->
      s <> "" /\
      ~ In ","%char (list_ascii_of_string s) /\
      forall c, first_char s = Some c \/ last_char s = Some c ->
                is_space c = false.
Proof.
  eexists. split; [reflexivity|].
  intros s Hs. destruct (non_empty (f_skills f)); [|destruct Hs].
  destruct (parsed_skill_kept _ _ Hs) as (Hne & Hcomma & Htrim).
  split; [exact Hne|]. split; [exact Hcomma|].
  rewrite <- Htrim. intros c [H|H].
  - now apply (trim_first s).
  - now apply (trim_end_last (trim_start s)).
Qed.



(** X23.  Saving is stable: a form initialised from the profile that a
    save of form [f] produced sends, unedited, the very updates [f]
    sent. *)
Theorem saving_again_sends_the_same (f : ProfileForm) (now : timestamptz)
    (p : Profile) :
  form_updates (form_of_profile (apply_profile_updates (form_updates f) now p))
  = form_updates f.
Proof.
  unfold form_updates at 1. unfold form_of_profile.
  cbn [apply_profile_updates form_updates u_email u_full_name u_phone
       u_company u_skills coalesce p_full_name p_email p_phone p_company
       p_skills f_full_name f_email f_phone f_company f_skills].
  rewrite skills_reparsed; [reflexivity|].
  intros s Hs. destruct (non_empty (f_skills f)); [|destruct Hs].
  exact (parsed_skill_kept _ _ Hs).
Qed.
(** ** Ticket numbers *)

Lemma digits_without_dash (d : Decimal.uint) :
  ~ In "-"%char (list_ascii_of_string (NilEmpty.string_of_uint d)).
Proof.
  induction d; cbn; try tauto; intros [H|H]; try discriminate H; tauto.
Qed.

Lemma split_at_dash (d1 d2 s1 s2 : string) :
  ~ In "-"%char (list_ascii_of_string d1) ->
  ~ In "-"%char (list_ascii_of_string d2) ->
  d1 ++ String "-" s1 = d2 ++ String "-" s2 ->
  d1 = d2 /\ s1 = s2.
Proof.
  revert d2. induction d1 as [|a d1 IH]; intros [|b d2]; cbn.
  - intros _ _ H. injection H as ->. now split.
  - intros _ Hb H. injection H as <- _. tauto.
  - intros Ha _ H. injection H as -> _. tauto.
  - intros Ha Hb H. injection H as -> H.
    destruct (IH d2) as [-> ->]; tauto.
Qed.

Lemma decimal_of_date (n : Z) :
  exists c digits,
    NilEmpty.string_of_int (Z.to_int n) = String c digits /\
    ~ In "-"%char (list_ascii_of_string digits).
Proof.
  destruct n as [|p|p]; cbn.
  - exists "0"%char, "". cbn. tauto.
  - pose proof (DecimalPos.Unsigned.to_uint_nonnil p) as Hp.
    destruct (Pos.to_uint p); [congruence| | | | | | | | | |]; cbn;
      eexists _, _; (split; [reflexivity|apply digits_without_dash]).
  - eexists _, _. split; [reflexivity|apply digits_without_dash].
Qed.

Lemma decimal_of_date_inj (n m : Z) :
  NilEmpty.string_of_int (Z.to_int n) = NilEmpty.string_of_int (Z.to_int m) ->
  n = m.
Proof.
  intros H. apply DecimalZ.to_int_inj.
  apply (f_equal NilEmpty.int_of_string) in H.
  rewrite !NilEmpty.isi in H. congruence.
Qed.

(** X24.  Two calls of [handleRegister] build the same ticket number
    only when they read the same [Date.now()] and draw the same random
    suffix: the dash between the two parts keeps them apart. *)
Theorem ticket_numbers_coincide_only_on_equal_draws (env1 env2 : RegisterEnv) :
  ticketNumber env1 = ticketNumber env2 <->
  date_now env1 = date_now env2 /\ random_suffix env1 = random_suffix env2.
Proof.
  unfold ticketNumber. split.
  - intros H. cbn in H. injection H as H.
    destruct (decimal_of_date (date_now env1)) as (c1 & t1 & E1 & H1).
    destruct (decimal_of_date (date_now env2)) as (c2 & t2 & E2 & H2).
    rewrite E1, E2 in H. cbn in H. injection H as -> H.
    destruct (split_at_dash _ _ _ _ H1 H2 H) as [-> Hs].
    split; [|exact Hs].
    apply decimal_of_date_inj. now rewrite E1, E2.
  - intros [-> ->]. reflexivity.
Qed.
